(** * Text rendering of tables: [converters/text/table_to_text.py]

    A shallow embedding of the table-to-text converter and the properties
    of its border detection, cell extraction and ASCII box drawing.

    Python [str] values are modelled as lists of characters, one element per
    character, so that [len], [join], [replace], [ljust] and [*] are the list
    operations they are.
    Python integers that can become negative are computed in [Z].
    A raised [IndexError] is modelled by [None] in the [option] monad. *)

From Stdlib Require Import ZArith Ascii String List Lia Bool.
From stdpp Require Import base option list strings.

Import ListNotations.
Local Open Scope list_scope.
Local Open Scope nat_scope.

(** ** Strings *)

Abbreviation str := (list ascii).

(** A string literal of the source. *)
Definition lit (s : string) : str := list_ascii_of_string s.

Definition NL : ascii := "010"%char.
Definition TAB : ascii := "009"%char.
Definition SP : ascii := " "%char.

(** [sep.join(parts)] *)
Fixpoint join (sep : str) (parts : list str) : str :=
  match parts with
  | [] => []
  | p :: rest =>
      match rest with
      | [] => p
      | _ :: _ => p ++ sep ++ join sep rest
      end
  end.

(** [text.replace(old, new)] for one-character [old] and [new]. *)
Definition replace_char (old new : ascii) (text : str) : str :=
  map (fun c => if decide (c = old) then new else c) text.

(** [text.ljust(width)]: pad on the right with spaces up to [width]. *)
Definition ljust (text : str) (width : nat) : str :=
  text ++ replicate (width - length text) SP.

(** [ch * n] for a Python integer [n]: empty when [n] is not positive. *)
Definition str_mul (ch : ascii) (n : Z) : str := replicate (Z.to_nat n) ch.

(** [s.split("\n")] *)
Fixpoint split_nl_aux (cur : str) (s : str) : list str :=
  match s with
  | [] => [cur]
  | c :: s' =>
      if decide (c = NL) then cur :: split_nl_aux [] s'
      else split_nl_aux (cur ++ [c]) s'
  end.

Definition split_nl (s : str) : list str := split_nl_aux [] s.

(** A loop [for i, x in enumerate(l)] threading a state. *)
Fixpoint enum_fold {A St : Type} (body : nat -> A -> St -> St)
    (i : nat) (l : list A) (s : St) : St :=
  match l with
  | [] => s
  | x :: l' => enum_fold body (S i) l' (body i x s)
  end.

(** ** Data model *)

(** A border edge: only its style value [val] is read by the converter. *)
Record Border := mkBorder { val : option str }.

Record TableBorders := mkTableBorders {
  tbl_top : option Border;
  tbl_bottom : option Border;
  tbl_left : option Border;
  tbl_right : option Border;
  tbl_inside_h : option Border;
  tbl_inside_v : option Border
}.

Record TableCellBorders := mkTableCellBorders {
  tc_top : option Border;
  tc_bottom : option Border;
  tc_left : option Border;
  tc_right : option Border
}.

Record TableProperties := mkTableProperties {
  tbl_borders : option TableBorders
}.

Record TableCellProperties := mkTableCellProperties {
  tc_borders : option TableCellBorders
}.

(** [BorderInfo] dataclass. *)
Record BorderInfo := mkBorderInfo {
  top : bool;
  bottom : bool;
  left : bool;
  right : bool;
  inside_h : bool;
  inside_v : bool
}.

(** [BorderInfo()] *)
Definition BorderInfo_default : BorderInfo :=
  mkBorderInfo false false false false false false.

(** [BorderInfo.has_any] *)
Definition has_any (info : BorderInfo) : bool :=
  top info || bottom info || left info || right info
  || inside_h info || inside_v info.

Definition full_borders : BorderInfo :=
  mkBorderInfo true true true true true true.

Inductive TableMode := Ascii | Tabs | Plain | Auto.

Section Converter.

(** The paragraph model and its renderer live in other modules of the
    package; the converter only calls [paragraph_to_text]. *)
Variable Paragraph : Type.
Variable paragraph_to_text : Paragraph -> str.

Inductive Table : Type :=
  mkTable (tbl_pr : option TableProperties) (tr : list TableRow)
with TableRow : Type :=
  mkTableRow (tc : list TableCell)
with TableCell : Type :=
  mkTableCell (tc_pr : option TableCellProperties) (content : list CellContent)
with CellContent : Type :=
  | CParagraph (p : Paragraph)
  | CTable (t : Table).

Definition tbl_pr (t : Table) : option TableProperties :=
  match t with mkTable pr _ => pr end.
Definition tr (t : Table) : list TableRow :=
  match t with mkTable _ rows => rows end.
Definition tc (r : TableRow) : list TableCell :=
  match r with mkTableRow cells => cells end.
Definition tc_pr (c : TableCell) : option TableCellProperties :=
  match c with mkTableCell pr _ => pr end.
Definition content (c : TableCell) : list CellContent :=
  match c with mkTableCell _ items => items end.

(** ** Cell content extraction *)

(** One iteration of the loop of [cell_to_text]. *)
Definition cell_to_text_step (parts : list str) (item : CellContent) : list str :=
  match item with
  | CParagraph p =>
      let text := paragraph_to_text p in
      match text with
      | [] => parts
      | _ :: _ => parts ++ [text]
      end
  | CTable _ => parts
  end.

Definition cell_to_text (cell : option TableCell) : str :=
  match cell with
  | None => []
  | Some c => join [NL] (fold_left cell_to_text_step (content c) [])
  end.

Definition row_to_text (row : option TableRow) (separator : str) : str :=
  match row with
  | None => []
  | Some r => join separator (map (fun cell => cell_to_text (Some cell)) (tc r))
  end.

(** ** Border detection *)

Definition _is_border_visible (border : option Border) : bool :=
  match border with
  | None => false
  | Some b =>
      match val b with
      | None => false
      | Some v =>
          negb (bool_decide (v = lit "none") || bool_decide (v = lit "nil"))
      end
  end.

(** Assignments [info.<flag> = True]. *)
Definition set_top (i : BorderInfo) : BorderInfo :=
  mkBorderInfo true (bottom i) (left i) (right i) (inside_h i) (inside_v i).
Definition set_bottom (i : BorderInfo) : BorderInfo :=
  mkBorderInfo (top i) true (left i) (right i) (inside_h i) (inside_v i).
Definition set_left (i : BorderInfo) : BorderInfo :=
  mkBorderInfo (top i) (bottom i) true (right i) (inside_h i) (inside_v i).
Definition set_right (i : BorderInfo) : BorderInfo :=
  mkBorderInfo (top i) (bottom i) (left i) true (inside_h i) (inside_v i).
Definition set_inside_h (i : BorderInfo) : BorderInfo :=
  mkBorderInfo (top i) (bottom i) (left i) (right i) true (inside_v i).
Definition set_inside_v (i : BorderInfo) : BorderInfo :=
  mkBorderInfo (top i) (bottom i) (left i) (right i) (inside_h i) true.

(** [if cond: info = f(info)] *)
Definition when (cond : bool) (f : BorderInfo -> BorderInfo)
    (info : BorderInfo) : BorderInfo :=
  if cond then f info else info.

(** The table-level part of [detect_borders]. *)
Definition table_level_borders (table : Table) : BorderInfo :=
  match tbl_pr table with
  | None => BorderInfo_default
  | Some pr =>
      match tbl_borders pr with
      | None => BorderInfo_default
      | Some borders =>
          mkBorderInfo
            (_is_border_visible (tbl_top borders))
            (_is_border_visible (tbl_bottom borders))
            (_is_border_visible (tbl_left borders))
            (_is_border_visible (tbl_right borders))
            (_is_border_visible (tbl_inside_h borders))
            (_is_border_visible (tbl_inside_v borders))
      end
  end.

(** The body of the inner loop of [detect_borders]; [n_rows] is
    [len(table.tr)] and [n_cols] is [len(row.tc)]. *)
Definition scan_cell (n_rows row_idx n_cols col_idx : nat)
    (cell : TableCell) (info : BorderInfo) : BorderInfo :=
  match tc_pr cell with
  | None => info
  | Some pr =>
      match tc_borders pr with
      | None => info
      | Some cb =>
          let r := Z.of_nat row_idx in
          let c := Z.of_nat col_idx in
          let last_r := (Z.of_nat n_rows - 1)%Z in
          let last_c := (Z.of_nat n_cols - 1)%Z in
          let vis := _is_border_visible in
          let info := when ((r =? 0)%Z && vis (tc_top cb)) set_top info in
          let info := when ((r =? last_r)%Z && vis (tc_bottom cb)) set_bottom info in
          let info := when ((c =? 0)%Z && vis (tc_left cb)) set_left info in
          let info := when ((c =? last_c)%Z && vis (tc_right cb)) set_right info in
          let info := when ((r <? last_r)%Z && vis (tc_bottom cb)) set_inside_h info in
          let info := when ((0 <? r)%Z && vis (tc_top cb)) set_inside_h info in
          let info := when ((c <? last_c)%Z && vis (tc_right cb)) set_inside_v info in
          let info := when ((0 <? c)%Z && vis (tc_left cb)) set_inside_v info in
          info
      end
  end.

Definition scan_row (n_rows row_idx : nat) (row : TableRow)
    (info : BorderInfo) : BorderInfo :=
  enum_fold (scan_cell n_rows row_idx (length (tc row))) 0 (tc row) info.

Definition scan_cells (rows : list TableRow) (info : BorderInfo) : BorderInfo :=
  enum_fold (scan_row (length rows)) 0 rows info.

Definition detect_borders (table : Table) : BorderInfo :=
  let info := table_level_borders table in
  match negb (has_any info), tr table with
  | true, _ :: _ => scan_cells (tr table) info
  | _, _ => info
  end.

Definition has_visible_borders (table : Table) : bool :=
  has_any (detect_borders table).

(** ** ASCII box mode *)

(** The cell texts of one row, newlines replaced by spaces. *)
Definition row_cells (row : TableRow) : list str :=
  map (fun cell => replace_char NL SP (cell_to_text (Some cell))) (tc row).

(** [rows_data] after the first loop of [table_to_ascii]. *)
Definition extract_rows (table : Table) : list (list str) :=
  map row_cells (tr table).

(** [max_cols] after the first loop of [table_to_ascii]. *)
Definition compute_max_cols (rows_data : list (list str)) : nat :=
  fold_left (fun max_cols cells => Nat.max max_cols (length cells)) rows_data 0.

(** [while len(row) < max_cols: row.append("")] *)
Definition pad_row (max_cols : nat) (row : list str) : list str :=
  row ++ replicate (max_cols - length row) [].

(** The inner loop of the column-width computation: [row[col_idx]] is read
    only under the guard [col_idx < len(row)]. *)
Definition col_width (rows_data : list (list str)) (col_idx : nat) : nat :=
  fold_left
    (fun max_width row =>
       match row !! col_idx with
       | Some text => Nat.max max_width (length text)
       | None => max_width
       end)
    rows_data 1.

Definition compute_col_widths (rows_data : list (list str)) (max_cols : nat)
    : list nat :=
  map (col_width rows_data) (seq 0 max_cols).

Definition h_char : ascii := "-"%char.
Definition corner : ascii := "+"%char.
Definition v_char : ascii := "|"%char.

Definition build_h_line (col_widths : list nat) (max_cols : nat)
    (left right inside_v : bool) : str :=
  let inner :=
    if inside_v then
      join [corner] (map (fun w => str_mul h_char (Z.of_nat w + 2)) col_widths)
    else
      str_mul h_char
        (Z.of_nat (sum_list col_widths) + 3 * (Z.of_nat max_cols - 1) + 2)
  in
  let left_char := if left then corner else h_char in
  let right_char := if right then corner else h_char in
  [left_char] ++ inner ++ [right_char].

(** The loop of [build_data_row]; [col_widths[col_idx]] raises when the
    index is out of range. *)
Fixpoint data_cells (col_widths : list nat) (col_idx : nat) (row : list str)
    : option (list str) :=
  match row with
  | [] => Some []
  | cell :: rest =>
      match col_widths !! col_idx with
      | None => None
      | Some width =>
          match data_cells col_widths (S col_idx) rest with
          | None => None
          | Some cells => Some (([SP] ++ ljust cell width ++ [SP]) :: cells)
          end
      end
  end.

Definition build_data_row (col_widths : list nat) (row : list str)
    (left right inside_v : bool) : option str :=
  match data_cells col_widths 0 row with
  | None => None
  | Some cells =>
      let inner := if inside_v then join [v_char] cells else join [SP] cells in
      let left_char := if left then v_char else SP in
      let right_char := if right then v_char else SP in
      Some ([left_char] ++ inner ++ [right_char])
  end.

(** The data-row loop: each row's line, followed by a rule between rows
    when [inside_h] is set; [n_rows] is [len(rows_data)]. *)
Fixpoint data_lines (col_widths : list nat) (max_cols : nat)
    (border_info : BorderInfo) (n_rows row_idx : nat)
    (rows : list (list str)) : option (list str) :=
  match rows with
  | [] => Some []
  | row :: rest =>
      match build_data_row col_widths row (left border_info)
              (right border_info) (inside_v border_info) with
      | None => None
      | Some line =>
          let sep :=
            if (Z.of_nat row_idx <? Z.of_nat n_rows - 1)%Z && inside_h border_info
            then [build_h_line col_widths max_cols (left border_info)
                    (right border_info) (inside_v border_info)]
            else [] in
          match data_lines col_widths max_cols border_info n_rows
                  (S row_idx) rest with
          | None => None
          | Some more => Some (line :: sep ++ more)
          end
      end
  end.

(** The list [lines] built by [table_to_ascii] from the padded rows. *)
Definition ascii_lines (rows_data : list (list str)) (max_cols : nat)
    (border_info : BorderInfo) : option (list str) :=
  let col_widths := compute_col_widths rows_data max_cols in
  let rule := build_h_line col_widths max_cols (left border_info)
                (right border_info) (inside_v border_info) in
  match data_lines col_widths max_cols border_info (length rows_data) 0
          rows_data with
  | None => None
  | Some body =>
      Some ((if top border_info then [rule] else [])
            ++ body
            ++ (if bottom border_info then [rule] else []))
  end.

Definition table_to_ascii (table : Table) (border_info : option BorderInfo)
    : option str :=
  match tr table with
  | [] => Some []
  | _ :: _ =>
      let border_info :=
        match border_info with
        | None => detect_borders table
        | Some info => info
        end in
      let rows_data := extract_rows table in
      let max_cols := compute_max_cols rows_data in
      match rows_data with
      | [] => Some []
      | _ :: _ =>
          let rows_data := map (pad_row max_cols) rows_data in
          match ascii_lines rows_data max_cols border_info with
          | None => None
          | Some lines => Some (join [NL] lines)
          end
      end
  end.

(** ** Tab-separated and plain modes *)

Definition table_to_tabs (table : Table) : str :=
  match tr table with
  | [] => []
  | _ :: _ => join [NL] (map (fun row => row_to_text (Some row) [TAB]) (tr table))
  end.

Definition table_to_plain (table : Table) : str :=
  match tr table with
  | [] => []
  | _ :: _ => join [NL] (map (fun row => row_to_text (Some row) [SP; SP]) (tr table))
  end.

(** ** Entry point *)

Definition table_to_text (table : option Table) (mode : TableMode) : option str :=
  match table with
  | None => Some []
  | Some table =>
      match tr table with
      | [] => Some []
      | _ :: _ =>
          let actual_mode :=
            match mode with
            | Auto => if has_visible_borders table then Ascii else Tabs
            | _ => mode
            end in
          match actual_mode with
          | Ascii =>
              match mode with
              | Ascii => table_to_ascii table (Some full_borders)
              | _ => table_to_ascii table None
              end
          | Tabs => Some (table_to_tabs table)
          | _ => Some (table_to_plain table)
          end
      end
  end.

End Converter.

Arguments mkTable {Paragraph} _ _.
Arguments mkTableRow {Paragraph} _.
Arguments mkTableCell {Paragraph} _ _.
Arguments CParagraph {Paragraph} _.
Arguments CTable {Paragraph} _.
Arguments tbl_pr {Paragraph} _.
Arguments tr {Paragraph} _.
Arguments tc {Paragraph} _.
Arguments tc_pr {Paragraph} _.
Arguments content {Paragraph} _.
Arguments scan_cell {Paragraph} _ _ _ _ _ _.
Arguments scan_row {Paragraph} _ _ _ _.
Arguments scan_cells {Paragraph} _ _.
Arguments table_level_borders {Paragraph} _.
Arguments detect_borders {Paragraph} _.
Arguments has_visible_borders {Paragraph} _.
Arguments cell_to_text_step {Paragraph} _ _ _.
Arguments cell_to_text {Paragraph} _ _.
Arguments row_to_text {Paragraph} _ _ _.
Arguments row_cells {Paragraph} _ _.
Arguments extract_rows {Paragraph} _ _.
Arguments table_to_ascii {Paragraph} _ _ _.
Arguments table_to_tabs {Paragraph} _ _.
Arguments table_to_plain {Paragraph} _ _.
Arguments table_to_text {Paragraph} _ _ _.

(** * Vocabulary of the properties *)

Definition nonempty (s : str) : bool :=
  match s with
  | [] => false
  | _ :: _ => true
  end.

Definition is_paragraph {Paragraph : Type} (item : CellContent Paragraph) : bool :=
  match item with
  | CParagraph _ => true
  | CTable _ => false
  end.

(** No edge of the table-level declaration is visible. *)
Definition no_visible_table_border {Paragraph : Type} (t : Table Paragraph) : Prop :=
  forall pr borders,
    tbl_pr t = Some pr -> tbl_borders pr = Some borders ->
    _is_border_visible (tbl_top borders) = false
    /\ _is_border_visible (tbl_bottom borders) = false
    /\ _is_border_visible (tbl_left borders) = false
    /\ _is_border_visible (tbl_right borders) = false
    /\ _is_border_visible (tbl_inside_h borders) = false
    /\ _is_border_visible (tbl_inside_v borders) = false.

(** No edge of the cell-level declaration is visible. *)
Definition no_visible_cell_border {Paragraph : Type} (c : TableCell Paragraph) : Prop :=
  forall pr cb,
    tc_pr c = Some pr -> tc_borders pr = Some cb ->
    _is_border_visible (tc_top cb) = false
    /\ _is_border_visible (tc_bottom cb) = false
    /\ _is_border_visible (tc_left cb) = false
    /\ _is_border_visible (tc_right cb) = false.

(** The ASCII rendering as a function of the extracted cell texts and the
    border flags. *)
Definition ascii_of_rows (rows_data : list (list str)) (border_info : BorderInfo)
    : option str :=
  let max_cols := compute_max_cols rows_data in
  match ascii_lines (map (pad_row max_cols) rows_data) max_cols border_info with
  | None => None
  | Some lines => Some (join [NL] lines)
  end.

(** A cell, row and table without the cell content that is not a
    paragraph. *)
Definition drop_nested_cell {Paragraph : Type} (c : TableCell Paragraph)
    : TableCell Paragraph :=
  mkTableCell (tc_pr c) (List.filter is_paragraph (content c)).

Definition drop_nested_row {Paragraph : Type} (r : TableRow Paragraph)
    : TableRow Paragraph :=
  mkTableRow (map drop_nested_cell (tc r)).

Definition drop_nested {Paragraph : Type} (t : Table Paragraph) : Table Paragraph :=
  mkTable (tbl_pr t) (map drop_nested_row (tr t)).

(** Every text of a row fits the width of its column. *)
Definition fits (row : list str) (col_widths : list nat) : Prop :=
  Forall2 (fun text width => length text <= width) row col_widths.

Definition no_nl (s : str) : Prop := Forall (fun ch => ch <> NL) s.

(** The common length of the lines drawn for the given column widths. *)
Definition line_width (col_widths : list nat) : nat :=
  2 + sum_list col_widths + 2 * length col_widths + (length col_widths - 1).

(** One padded cell of a data row. *)
Definition cell_box (text : str) (width : nat) : str :=
  [SP] ++ ljust text width ++ [SP].

(** A line of the box: the horizontal rule or the rendering of a row. *)
Definition rule_or_data_row (col_widths : list nat) (max_cols : nat)
    (border_info : BorderInfo) (rows : list (list str)) (line : str) : Prop :=
  line = build_h_line col_widths max_cols (left border_info)
           (right border_info) (inside_v border_info)
  \/ exists row, In row rows
       /\ build_data_row col_widths row (left border_info)
            (right border_info) (inside_v border_info) = Some line.

Definition uniform_line (col_widths : list nat) (line : str) : Prop :=
  length line = line_width col_widths /\ no_nl line.

Section Vocabulary.

Context {Paragraph : Type} (paragraph_to_text : Paragraph -> str).
Implicit Types (t : Table Paragraph) (r : TableRow Paragraph).

(** The rendered texts of the paragraphs of a cell, one entry per
    paragraph, in document order. *)
Definition paragraph_texts (items : list (CellContent Paragraph)) : list str :=
  flat_map
    (fun item =>
       match item with
       | CParagraph p => [paragraph_to_text p]
       | CTable _ => []
       end)
    items.

(** [max_cols] and [col_widths] as [table_to_ascii] computes them. *)
Definition table_max_cols t : nat :=
  compute_max_cols (extract_rows paragraph_to_text t).

Definition table_col_widths t : list nat :=
  let rows_data := extract_rows paragraph_to_text t in
  let max_cols := compute_max_cols rows_data in
  compute_col_widths (map (pad_row max_cols) rows_data) max_cols.

(** The text of the cell of [r] in column [j] with its newlines replaced by
    spaces; the empty text when the row has no such cell. *)
Definition flat_cell_text r (j : nat) : str :=
  match tc r !! j with
  | Some cell => replace_char NL SP (cell_to_text paragraph_to_text (Some cell))
  | None => []
  end.

(** [rows_data] after the padding loop of [table_to_ascii]. *)
Definition padded_rows t : list (list str) :=
  map (pad_row (table_max_cols t)) (extract_rows paragraph_to_text t).

(** The border flags [table_to_ascii] draws with. *)
Definition effective_borders t (border_info : option BorderInfo) : BorderInfo :=
  match border_info with
  | None => detect_borders t
  | Some info => info
  end.

End Vocabulary.

(** ** A concrete paragraph model for examples

  A paragraph is identified with the text it renders to. *)
Module Sample.
Definition Para : Type := str.
Definition render (p : Para) : str := p.

Definition cell (texts : list string) : TableCell Para :=
  mkTableCell None (map (fun s => CParagraph (lit s)) texts).

Definition t12 : Table Para :=
  mkTable None [mkTableRow [cell ["A1"%string]; cell ["A2"%string]]].
End Sample.

(** ** Concrete tables *)

Module Cases.
Import Sample.

Definition single : option Border := Some (mkBorder (Some (lit "single"))).

(** Table-level declaration with a visible top edge only. *)
Definition top_borders : TableBorders :=
  mkTableBorders single None None None None None.

Definition top_props : TableProperties :=
  mkTableProperties (Some top_borders).

Definition top_only : option TableProperties := Some top_props.

(** One row without any cell, under a visible top edge. *)
Definition t_no_cells : Table Para := mkTable top_only [mkTableRow []].

(** One row of two cells under a visible top edge; the second cell
    declares all of its own edges. *)
Definition boxed_cell (texts : list string) : TableCell Para :=
  mkTableCell
    (Some (mkTableCellProperties
             (Some (mkTableCellBorders single single single single))))
    (map (fun s => CParagraph (lit s)) texts).

Definition t_top : Table Para :=
  mkTable top_only [mkTableRow [cell ["A1"%string]; boxed_cell ["A2"%string]]].

(** A 2x2 table whose top-left cell alone declares a bottom edge. *)
Definition bottom_only : TableCellProperties :=
  mkTableCellProperties (Some (mkTableCellBorders None single None None)).

Definition t22 : Table Para :=
  mkTable None
    [mkTableRow [mkTableCell (Some bottom_only) [CParagraph (lit "a")];
                 cell ["b"%string]];
     mkTableRow [cell ["c"%string]; cell ["d"%string]]].

(** A ragged table: rows of two, one and three cells. *)
Definition t_ragged : Table Para :=
  mkTable None
    [mkTableRow [cell ["ab"%string]; cell ["c"%string]];
     mkTableRow [cell ["defg"%string]];
     mkTableRow [cell []; cell ["x"%string; "y"%string]; cell ["z"%string]]].

Definition t_empty : Table Para := mkTable top_only [].
End Cases.

(** * The converter class and further vocabulary *)

(** [TableToTextConverter]: the object holds the rendering mode. *)
Record TableToTextConverter := mkTableToTextConverter { mode : TableMode }.

(** [TableToTextConverter()]: the mode defaults to [auto]. *)
Definition default_converter : TableToTextConverter :=
  mkTableToTextConverter Auto.

(** [TableToTextConverter.convert] *)
Definition convert {Paragraph : Type} (paragraph_to_text : Paragraph -> str)
    (self : TableToTextConverter) (table : option (Table Paragraph)) : option str :=
  table_to_text paragraph_to_text table (mode self).

(** [text.replace(old, new)] for a one-character [old]. *)
Definition replace_char_with (old : ascii) (new : str) (text : str) : str :=
  flat_map (fun c => if decide (c = old) then new else [c]) text.

(** [s.split(ch)] for a one-character separator. *)
Fixpoint split_on_aux (ch : ascii) (cur : str) (s : str) : list str :=
  match s with
  | [] => [cur]
  | c :: s' =>
      if decide (c = ch) then cur :: split_on_aux ch [] s'
      else split_on_aux ch (cur ++ [c]) s'
  end.

Definition split_on (ch : ascii) (s : str) : list str := split_on_aux ch [] s.

(** Some element of [l], at position [i], [i+1], ..., satisfies [g]. *)
Fixpoint any_indexed {A : Type} (g : nat -> A -> bool) (i : nat) (l : list A)
    : bool :=
  match l with
  | [] => false
  | x :: l' => g i x || any_indexed g (S i) l'
  end.

(** The lines [lines] with the lines [sep] put between consecutive ones. *)
Fixpoint between (sep : list str) (lines : list str) : list str :=
  match lines with
  | [] => []
  | line :: rest =>
      match rest with
      | [] => [line]
      | _ :: _ => line :: sep ++ between sep rest
      end
  end.

(** The line of a data row: the padded cells between the edge characters. *)
Definition row_line (col_widths : list nat) (border_info : BorderInfo)
    (row : list str) : str :=
  [if left border_info then v_char else SP]
  ++ join [if inside_v border_info then v_char else SP]
       (zip_with cell_box row col_widths)
  ++ [if right border_info then v_char else SP].

(** The horizontal rule drawn for a table. *)
Definition rule_line (col_widths : list nat) (border_info : BorderInfo) : str :=
  build_h_line col_widths (length col_widths) (left border_info)
    (right border_info) (inside_v border_info).

Definition b2n (b : bool) : nat := if b then 1 else 0.

Section MoreVocabulary.

Context {Paragraph : Type}.
Implicit Types (t : Table Paragraph) (r : TableRow Paragraph)
  (c : TableCell Paragraph).

(** The given edge of the cell is declared and visible. *)
Definition cell_edge (edge : TableCellBorders -> option Border) c : bool :=
  match tc_pr c with
  | None => false
  | Some pr =>
      match tc_borders pr with
      | None => false
      | Some cb => _is_border_visible (edge cb)
      end
  end.

Definition cell_edge_visible c : bool :=
  cell_edge tc_top c || cell_edge tc_bottom c
  || cell_edge tc_left c || cell_edge tc_right c.

(** Some edge of the table-level declaration is visible. *)
Definition table_edge_visible t : bool :=
  match tbl_pr t with
  | None => false
  | Some pr =>
      match tbl_borders pr with
      | None => false
      | Some borders =>
          _is_border_visible (tbl_top borders)
          || _is_border_visible (tbl_bottom borders)
          || _is_border_visible (tbl_left borders)
          || _is_border_visible (tbl_right borders)
          || _is_border_visible (tbl_inside_h borders)
          || _is_border_visible (tbl_inside_v borders)
      end
  end.

(** Some edge is visible, at the table level or at a cell. *)
Definition any_edge_visible t : bool :=
  table_edge_visible t
  || existsb (fun r => existsb cell_edge_visible (tc r)) (tr t).

(** A cell without properties and content. *)
Definition empty_cell : TableCell Paragraph := mkTableCell None [].

(** The table with every row filled up with empty cells to the length of
    its longest row. *)
Definition fill_row (max_cols : nat) r : TableRow Paragraph :=
  mkTableRow (tc r ++ replicate (max_cols - length (tc r)) empty_cell).

Definition fill_table t : Table Paragraph :=
  mkTable (tbl_pr t)
    (map (fill_row (max_list_with (fun r => length (tc r)) (tr t))) (tr t)).

(** The table without any border declaration. *)
Definition strip_cell_borders c : TableCell Paragraph :=
  mkTableCell None (content c).

Definition strip_borders t : Table Paragraph :=
  mkTable None
    (map (fun r => mkTableRow (map strip_cell_borders (tc r))) (tr t)).

End MoreVocabulary.

(** The cell texts of a table, row by row, as the tab and plain modes
    print them. *)
Definition cell_texts {Paragraph : Type} (paragraph_to_text : Paragraph -> str)
    (t : Table Paragraph) : list (list str) :=
  map (fun r => map (fun c => cell_to_text paragraph_to_text (Some c)) (tc r))
    (tr t).

(** ** A fully bordered table *)

Module Boxed.
Import Sample.

Definition all_borders : TableBorders :=
  mkTableBorders Cases.single Cases.single Cases.single Cases.single
    Cases.single Cases.single.

Definition all_props : TableProperties := mkTableProperties (Some all_borders).

Definition t_boxed : Table Para :=
  mkTable (Some all_props)
    [mkTableRow [cell ["a"%string]; cell ["b"%string]];
     mkTableRow [cell ["c"%string]]].
End Boxed.

(** * Properties *)

(** The literal case of the specification: one row, cells "A1" and "A2",
    full borders. *)
Example ascii_literal_case :
  table_to_text Sample.render (Some Sample.t12) Ascii
  = Some (lit "+----+----+" ++ [NL] ++ lit "| A1 | A2 |" ++ [NL]
          ++ lit "+----+----+").
Proof. reflexivity. Qed.

(** ** Strings and loops *)

Lemma join_cons (sep p : str) (rest : list str) :
  rest <> [] -> join sep (p :: rest) = p ++ sep ++ join sep rest.
Proof. destruct rest; [congruence | reflexivity]. Qed.

Lemma join_length (sep : str) (parts : list str) :
  length (join sep parts)
  = sum_list (map (fun p => length p) parts) + length sep * (length parts - 1).
Proof.
  induction parts as [| p rest IH]; [simpl; lia |].
  destruct rest as [| q rest].
  - simpl. lia.
  - rewrite join_cons by discriminate.
    rewrite !length_app, IH. simpl. lia.
Qed.

Lemma enum_fold_unchanged {A St : Type} (body : nat -> A -> St -> St)
    (l : list A) (s : St) :
  (forall i x, In x l -> body i x s = s) ->
  forall i, enum_fold body i l s = s.
Proof.
  induction l as [| x l IH]; intros Hbody i; [reflexivity |].
  simpl. rewrite Hbody by (now left).
  apply IH. intros j y Hy. apply Hbody. now right.
Qed.

Lemma enum_fold_map {A B St : Type} (f : A -> B) (body : nat -> B -> St -> St)
    (l : list A) :
  forall i s, enum_fold body i (map f l) s
              = enum_fold (fun j x => body j (f x)) i l s.
Proof. induction l as [| x l IH]; intros i s; simpl; [reflexivity | apply IH]. Qed.

Lemma enum_fold_ext {A St : Type} (body body' : nat -> A -> St -> St)
    (l : list A) :
  (forall i x s, body i x s = body' i x s) ->
  forall i s, enum_fold body i l s = enum_fold body' i l s.
Proof.
  intros Hext. induction l as [| x l IH]; intros i s; simpl; [reflexivity |].
  rewrite Hext. apply IH.
Qed.

(** ** Cell text *)

Section CellText.

Context {Paragraph : Type} (paragraph_to_text : Paragraph -> str).

Lemma cell_to_text_loop (items : list (CellContent Paragraph)) :
  forall parts,
    fold_left (cell_to_text_step paragraph_to_text) items parts
    = parts ++ List.filter nonempty (paragraph_texts paragraph_to_text items).
Proof.
  induction items as [| item items IH]; intros parts; simpl.
  - now rewrite app_nil_r.
  - rewrite IH. destruct item as [p | t]; simpl; [| reflexivity].
    destruct (paragraph_to_text p) as [| c text]; simpl; [reflexivity |].
    now rewrite <- app_assoc.
Qed.

Lemma paragraph_texts_filter (items : list (CellContent Paragraph)) :
  paragraph_texts paragraph_to_text (List.filter is_paragraph items)
  = paragraph_texts paragraph_to_text items.
Proof.
  induction items as [| [p | t] items IH]; simpl; [reflexivity | | assumption].
  now rewrite IH.
Qed.

Lemma paragraph_texts_app (xs ys : list (CellContent Paragraph)) :
  paragraph_texts paragraph_to_text (xs ++ ys)
  = paragraph_texts paragraph_to_text xs ++ paragraph_texts paragraph_to_text ys.
Proof. unfold paragraph_texts. now rewrite flat_map_app. Qed.

Lemma cell_to_text_spec (c : TableCell Paragraph) :
  cell_to_text paragraph_to_text (Some c)
  = join [NL]
      (List.filter nonempty (paragraph_texts paragraph_to_text (content c))).
Proof. unfold cell_to_text. now rewrite cell_to_text_loop. Qed.

(** C2, as amended: for every non-null cell, [cell_to_text] is the
    newline-join of the rendered texts of the cell's paragraphs, in document
    order, with the paragraphs whose rendered text is empty left out. *)
Theorem C2_cell_to_text_joins_nonempty_paragraph_texts
    (c : TableCell Paragraph) :
  cell_to_text paragraph_to_text (Some c)
  = join [NL]
      (List.filter nonempty (paragraph_texts paragraph_to_text (content c))).
Proof. apply cell_to_text_spec. Qed.

End CellText.

(** C2, as stated, fails: a cell with paragraphs rendering to "a", "" and "b"
    yields "a\nb", whereas one entry per paragraph joined with newlines is
    "a\n\nb". *)
Lemma C2_counterexample :
  let c := Sample.cell ["a"; ""; "b"]%string in
  cell_to_text Sample.render (Some c) = lit "a" ++ [NL] ++ lit "b"
  /\ join [NL] (paragraph_texts Sample.render (content c))
     = lit "a" ++ [NL] ++ [NL] ++ lit "b"
  /\ cell_to_text Sample.render (Some c)
     <> join [NL] (paragraph_texts Sample.render (content c)).
Proof. repeat split; try reflexivity. discriminate. Qed.

(** ** Border detection *)

Lemma is_border_visible_iff (border : option Border) :
  _is_border_visible border = true
  <-> exists b v, border = Some b /\ val b = Some v
                  /\ v <> lit "none" /\ v <> lit "nil".
Proof.
  unfold _is_border_visible. split.
  - destruct border as [b |]; [| discriminate].
    destruct (val b) as [v |] eqn:Hv; [| discriminate].
    intros H. exists b, v.
    rewrite negb_true_iff, orb_false_iff in H. destruct H as [H1 H2].
    apply bool_decide_eq_false in H1, H2. auto.
  - intros (b & v & -> & Hv & H1 & H2). rewrite Hv.
    rewrite negb_true_iff, orb_false_iff.
    split; apply bool_decide_eq_false; assumption.
Qed.

Section Borders.

Context {Paragraph : Type}.
Implicit Types (t : Table Paragraph) (c : TableCell Paragraph).

Lemma table_level_default t :
  no_visible_table_border t -> table_level_borders t = BorderInfo_default.
Proof.
  intros H. unfold table_level_borders.
  destruct (tbl_pr t) as [pr |] eqn:Hpr; [| reflexivity].
  destruct (tbl_borders pr) as [borders |] eqn:Hb; [| reflexivity].
  destruct (H pr borders Hpr Hb) as (-> & -> & -> & -> & -> & ->).
  reflexivity.
Qed.

Lemma table_level_no_visible t :
  has_any (table_level_borders t) = false -> no_visible_table_border t.
Proof.
  unfold no_visible_table_border, table_level_borders, has_any.
  intros H pr borders Hpr Hb. rewrite Hpr, Hb in H. simpl in H.
  repeat (apply orb_false_iff in H; destruct H as [H ?]). auto 10.
Qed.

Lemma scan_cell_no_visible n_rows row_idx n_cols col_idx c info :
  no_visible_cell_border c ->
  scan_cell n_rows row_idx n_cols col_idx c info = info.
Proof.
  intros H. unfold scan_cell.
  destruct (tc_pr c) as [pr |] eqn:Hpr; [| reflexivity].
  destruct (tc_borders pr) as [cb |] eqn:Hcb; [| reflexivity].
  destruct (H pr cb Hpr Hcb) as (-> & -> & -> & ->).
  now rewrite !andb_false_r.
Qed.

Lemma scan_cells_no_visible (rows : list (TableRow Paragraph)) info :
  (forall row c, In row rows -> In c (tc row) -> no_visible_cell_border c) ->
  scan_cells rows info = info.
Proof.
  intros H. unfold scan_cells. apply enum_fold_unchanged.
  intros i row Hrow. unfold scan_row. apply enum_fold_unchanged.
  intros j c Hc. apply scan_cell_no_visible. eauto.
Qed.

Lemma detect_borders_table_level t :
  has_any (table_level_borders t) = true ->
  detect_borders t = table_level_borders t.
Proof. intros H. unfold detect_borders. now rewrite H. Qed.

Lemma detect_borders_cell_level t :
  has_any (table_level_borders t) = false ->
  detect_borders t = scan_cells (tr t) BorderInfo_default.
Proof.
  intros H. unfold detect_borders. rewrite H.
  rewrite (table_level_default t (table_level_no_visible t H)).
  now destruct (tr t).
Qed.

Lemma detect_borders_none t :
  no_visible_table_border t ->
  (forall row c, In row (tr t) -> In c (tc row) -> no_visible_cell_border c) ->
  detect_borders t = BorderInfo_default.
Proof.
  intros Ht Hc. rewrite detect_borders_cell_level.
  - now apply scan_cells_no_visible.
  - now rewrite table_level_default.
Qed.

(** C1: an edge is visible exactly when it is declared with a style value
    other than "none" and "nil"; when some table-level edge is visible the
    detected border set is the table-level one, whatever the rows and their
    cell borders are; the cells are aggregated only when no table-level edge
    is visible. *)
Theorem C1_visibility_and_table_level_precedence :
  (forall border : option Border,
      _is_border_visible border = true
      <-> exists b v, border = Some b /\ val b = Some v
                      /\ v <> lit "none" /\ v <> lit "nil")
  /\ (forall t pr borders,
        tbl_pr t = Some pr -> tbl_borders pr = Some borders ->
        _is_border_visible (tbl_top borders)
        || _is_border_visible (tbl_bottom borders)
        || _is_border_visible (tbl_left borders)
        || _is_border_visible (tbl_right borders)
        || _is_border_visible (tbl_inside_h borders)
        || _is_border_visible (tbl_inside_v borders) = true ->
        forall rows : list (TableRow Paragraph),
          detect_borders (mkTable (Some pr) rows)
          = mkBorderInfo
              (_is_border_visible (tbl_top borders))
              (_is_border_visible (tbl_bottom borders))
              (_is_border_visible (tbl_left borders))
              (_is_border_visible (tbl_right borders))
              (_is_border_visible (tbl_inside_h borders))
              (_is_border_visible (tbl_inside_v borders))
          /\ detect_borders t = detect_borders (mkTable (Some pr) rows))
  /\ (forall t,
        detect_borders t <> table_level_borders t ->
        no_visible_table_border t
        /\ detect_borders t = scan_cells (tr t) BorderInfo_default).
Proof.
  split; [exact is_border_visible_iff |]. split.
  - intros t pr borders Hpr Hb Hvis rows.
    assert (Hany : forall rows' : list (TableRow Paragraph),
               has_any (table_level_borders (mkTable (Some pr) rows')) = true).
    { intros rows'. unfold table_level_borders. simpl. rewrite Hb. exact Hvis. }
    assert (Ht : has_any (table_level_borders t) = true).
    { destruct t as [pr' rows']. simpl in Hpr. subst pr'. apply Hany. }
    rewrite !detect_borders_table_level by auto.
    unfold table_level_borders. rewrite Hpr. simpl. now rewrite Hb.
  - intros t Hne.
    destruct (has_any (table_level_borders t)) eqn:Hany.
    + exfalso. apply Hne. now apply detect_borders_table_level.
    + split; [now apply table_level_no_visible |].
      now apply detect_borders_cell_level.
Qed.

(** Without a visible border at any level nothing is detected. *)
Lemma has_visible_borders_none t :
  no_visible_table_border t ->
  (forall row c, In row (tr t) -> In c (tc row) -> no_visible_cell_border c) ->
  has_visible_borders t = false.
Proof.
  intros Ht Hc. unfold has_visible_borders.
  now rewrite detect_borders_none.
Qed.

(** C5: in a 2x2 table without visible table-level borders whose only
    visible cell edge is the bottom edge of the top-left cell, only
    [inside_h] is detected. *)
Theorem C5_top_left_bottom_border_gives_inside_h t c00 c01 c10 c11 pr cb :
  tr t = [mkTableRow [c00; c01]; mkTableRow [c10; c11]] ->
  no_visible_table_border t ->
  tc_pr c00 = Some pr -> tc_borders pr = Some cb ->
  _is_border_visible (tc_bottom cb) = true ->
  _is_border_visible (tc_top cb) = false ->
  _is_border_visible (tc_left cb) = false ->
  _is_border_visible (tc_right cb) = false ->
  no_visible_cell_border c01 ->
  no_visible_cell_border c10 ->
  no_visible_cell_border c11 ->
  detect_borders t = mkBorderInfo false false false false true false.
Proof.
  intros Htr Ht Hpr Hcb Hb Ht' Hl Hr H01 H10 H11.
  rewrite detect_borders_cell_level by now rewrite table_level_default.
  rewrite Htr. unfold scan_cells, scan_row. simpl.
  rewrite (scan_cell_no_visible _ _ _ _ c11) by assumption.
  rewrite (scan_cell_no_visible _ _ _ _ c10) by assumption.
  rewrite (scan_cell_no_visible _ _ _ _ c01) by assumption.
  unfold scan_cell. rewrite Hpr, Hcb, Hb, Ht', Hl, Hr. reflexivity.
Qed.

End Borders.

(** ** Entry point and nested content *)

Section EntryPoint.

Context {Paragraph : Type} (paragraph_to_text : Paragraph -> str).
Implicit Types (t : Table Paragraph) (c : TableCell Paragraph)
  (r : TableRow Paragraph).

Lemma table_to_ascii_rows t border_info :
  tr t <> [] ->
  table_to_ascii paragraph_to_text t border_info
  = ascii_of_rows (extract_rows paragraph_to_text t)
      (match border_info with
       | None => detect_borders t
       | Some info => info
       end).
Proof.
  intros Hne. unfold table_to_ascii, ascii_of_rows, extract_rows.
  destruct (tr t) as [| row rows]; [congruence | reflexivity].
Qed.

(** C8: a missing cell, a missing table and a table without rows all render
    to the empty string, in every mode. *)
Theorem C8_missing_or_empty_renders_empty_string :
  cell_to_text paragraph_to_text None = []
  /\ (forall mode, table_to_text paragraph_to_text None mode = Some [])
  /\ (forall t mode,
        tr t = [] -> table_to_text paragraph_to_text (Some t) mode = Some []).
Proof.
  repeat split; try reflexivity.
  intros t mode Htr. unfold table_to_text. now rewrite Htr.
Qed.

(** C3: a table without a visible border at the table level and at every
    cell renders in [auto] mode as it does in [tabs] mode. *)
Theorem C3_auto_without_borders_is_tabs t :
  no_visible_table_border t ->
  (forall r c, In r (tr t) -> In c (tc r) -> no_visible_cell_border c) ->
  table_to_text paragraph_to_text (Some t) Auto
  = table_to_text paragraph_to_text (Some t) Tabs.
Proof.
  intros Ht Hc. unfold table_to_text.
  rewrite (has_visible_borders_none t Ht Hc). reflexivity.
Qed.

Lemma cell_to_text_drop_nested c :
  cell_to_text paragraph_to_text (Some (drop_nested_cell c))
  = cell_to_text paragraph_to_text (Some c).
Proof.
  rewrite !cell_to_text_spec. unfold drop_nested_cell. simpl.
  now rewrite paragraph_texts_filter.
Qed.

Lemma row_to_text_drop_nested r separator :
  row_to_text paragraph_to_text (Some (drop_nested_row r)) separator
  = row_to_text paragraph_to_text (Some r) separator.
Proof.
  unfold row_to_text, drop_nested_row. simpl. rewrite map_map.
  f_equal. apply map_ext. intros c. apply cell_to_text_drop_nested.
Qed.

Lemma extract_rows_drop_nested t :
  extract_rows paragraph_to_text (drop_nested t)
  = extract_rows paragraph_to_text t.
Proof.
  unfold extract_rows, drop_nested. simpl. rewrite map_map.
  apply map_ext. intros r. unfold row_cells, drop_nested_row. simpl.
  rewrite map_map. apply map_ext. intros c.
  f_equal. apply (cell_to_text_drop_nested c).
Qed.

Lemma scan_cells_drop_nested (rows : list (TableRow Paragraph)) info :
  scan_cells (map drop_nested_row rows) info = scan_cells rows info.
Proof.
  unfold scan_cells. rewrite enum_fold_map, length_map.
  apply enum_fold_ext. intros i r s.
  unfold scan_row, drop_nested_row. simpl.
  rewrite enum_fold_map, length_map.
  apply enum_fold_ext. intros j c s'. reflexivity.
Qed.

Lemma detect_borders_drop_nested t :
  detect_borders (drop_nested t) = detect_borders t.
Proof.
  unfold detect_borders, drop_nested, table_level_borders. simpl.
  destruct (tr t) as [| r rows] eqn:Htr; [reflexivity |].
  rewrite <- (scan_cells_drop_nested (r :: rows)). reflexivity.
Qed.

Lemma tr_drop_nested_nil t : tr (drop_nested t) = [] <-> tr t = [].
Proof. unfold drop_nested. simpl. now destruct (tr t). Qed.

Lemma table_to_ascii_drop_nested t border_info :
  table_to_ascii paragraph_to_text (drop_nested t) border_info
  = table_to_ascii paragraph_to_text t border_info.
Proof.
  destruct (tr t) as [| r rows] eqn:Htr.
  - unfold table_to_ascii. rewrite Htr.
    now rewrite (proj2 (tr_drop_nested_nil t) Htr).
  - rewrite !table_to_ascii_rows.
    + now rewrite extract_rows_drop_nested, detect_borders_drop_nested.
    + congruence.
    + rewrite tr_drop_nested_nil. congruence.
Qed.

Lemma table_to_tabs_drop_nested t :
  table_to_tabs paragraph_to_text (drop_nested t)
  = table_to_tabs paragraph_to_text t.
Proof.
  unfold table_to_tabs, drop_nested. simpl.
  destruct (tr t) as [| r rows]; [reflexivity |].
  change (map drop_nested_row (r :: rows)) with
    (drop_nested_row r :: map drop_nested_row rows) at 1.
  cbv iota. rewrite map_map. f_equal. apply map_ext.
  intros r'. apply row_to_text_drop_nested.
Qed.

Lemma table_to_plain_drop_nested t :
  table_to_plain paragraph_to_text (drop_nested t)
  = table_to_plain paragraph_to_text t.
Proof.
  unfold table_to_plain, drop_nested. simpl.
  destruct (tr t) as [| r rows]; [reflexivity |].
  change (map drop_nested_row (r :: rows)) with
    (drop_nested_row r :: map drop_nested_row rows) at 1.
  cbv iota. rewrite map_map. f_equal. apply map_ext.
  intros r'. apply row_to_text_drop_nested.
Qed.

(** C9: content of a cell that is not a paragraph, a nested table in
    particular, contributes nothing to the cell's text, and so nothing to
    the rendering of the table in any mode. *)
Theorem C9_nested_tables_are_ignored :
  (forall c,
      cell_to_text paragraph_to_text (Some c)
      = cell_to_text paragraph_to_text (Some (drop_nested_cell c)))
  /\ (forall pr before (inner : Table Paragraph) after,
        cell_to_text paragraph_to_text
          (Some (mkTableCell pr (before ++ CTable inner :: after)))
        = cell_to_text paragraph_to_text
            (Some (mkTableCell pr (before ++ after))))
  /\ (forall t mode,
        table_to_text paragraph_to_text (Some t) mode
        = table_to_text paragraph_to_text (Some (drop_nested t)) mode).
Proof.
  split; [| split].
  - intros c. symmetry. apply cell_to_text_drop_nested.
  - intros pr before inner after. rewrite !cell_to_text_spec. simpl.
    now rewrite !paragraph_texts_app.
  - intros t mode. unfold table_to_text, has_visible_borders.
    rewrite detect_borders_drop_nested, !table_to_ascii_drop_nested,
      table_to_tabs_drop_nested, table_to_plain_drop_nested.
    destruct (tr t) as [| r rows] eqn:Htr.
    + now rewrite (proj2 (tr_drop_nested_nil t) Htr).
    + destruct (tr (drop_nested t)) eqn:Hd; [| reflexivity].
      apply (proj1 (tr_drop_nested_nil t)) in Hd. congruence.
Qed.

End EntryPoint.

(** ** Column widths *)

Lemma fold_max_spec {A : Type} (f : A -> nat) (l : list A) :
  forall a, fold_left (fun m x => Nat.max m (f x)) l a
            = Nat.max a (max_list_with f l).
Proof.
  induction l as [| x l IH]; intros a; simpl; [lia |].
  rewrite IH. lia.
Qed.

Lemma max_list_with_ge {A : Type} (f : A -> nat) (l : list A) (x : A) :
  In x l -> f x <= max_list_with f l.
Proof.
  induction l as [| y l IH]; simpl; [tauto |].
  intros [-> | Hx]; [lia |]. specialize (IH Hx). lia.
Qed.

Lemma max_list_with_ext_map {A B : Type} (f : A -> nat) (g : B -> nat)
    (h : B -> A) (l : list B) :
  (forall x, f (h x) = g x) ->
  max_list_with f (map h l) = max_list_with g l.
Proof.
  intros Hfg. induction l as [| x l IH]; simpl; [reflexivity |].
  now rewrite Hfg, IH.
Qed.

Lemma compute_max_cols_spec (rows_data : list (list str)) :
  compute_max_cols rows_data = max_list_with (fun cells => length cells) rows_data.
Proof. unfold compute_max_cols. rewrite fold_max_spec. apply Nat.max_0_l. Qed.

Lemma col_width_spec (rows_data : list (list str)) (col_idx : nat) :
  col_width rows_data col_idx
  = Nat.max 1 (max_list_with (fun row => length (nth col_idx row [])) rows_data).
Proof.
  unfold col_width. rewrite <- fold_max_spec. generalize 1.
  induction rows_data as [| row rows IH]; intros a; simpl; [reflexivity |].
  destruct (row !! col_idx) as [text |] eqn:Hl.
  - rewrite (nth_lookup_Some _ _ [] _ Hl). apply IH.
  - apply lookup_ge_None in Hl. rewrite (nth_overflow row [] Hl).
    simpl. rewrite Nat.max_0_r. apply IH.
Qed.

Lemma nth_replicate_nil (k j : nat) : nth j (replicate k ([] : str)) [] = [].
Proof.
  revert j. induction k as [| k IH]; intros [| j]; simpl; auto.
Qed.

Lemma nth_pad_row (max_cols : nat) (row : list str) (j : nat) :
  nth j (pad_row max_cols row) [] = nth j row [].
Proof.
  unfold pad_row. destruct (Nat.lt_ge_cases j (length row)) as [Hlt | Hge].
  - now rewrite app_nth1.
  - rewrite app_nth2 by lia. rewrite nth_replicate_nil.
    now rewrite (nth_overflow row).
Qed.

Lemma pad_row_length (max_cols : nat) (row : list str) :
  length row <= max_cols -> length (pad_row max_cols row) = max_cols.
Proof. intros H. unfold pad_row. rewrite length_app, length_replicate. lia. Qed.

Lemma padded_rows_length (rows_data : list (list str)) (row : list str) :
  In row (map (pad_row (compute_max_cols rows_data)) rows_data) ->
  length row = compute_max_cols rows_data.
Proof.
  intros Hin. apply in_map_iff in Hin. destruct Hin as (row0 & <- & Hin).
  apply pad_row_length. rewrite compute_max_cols_spec.
  apply (max_list_with_ge (fun cells : list str => length cells)). exact Hin.
Qed.

Lemma compute_col_widths_length (rows_data : list (list str)) (max_cols : nat) :
  length (compute_col_widths rows_data max_cols) = max_cols.
Proof. unfold compute_col_widths. now rewrite length_map, length_seq. Qed.

Lemma compute_col_widths_lookup (rows_data : list (list str)) (max_cols j : nat) :
  j < max_cols ->
  compute_col_widths rows_data max_cols !! j = Some (col_width rows_data j).
Proof.
  intros Hj. unfold compute_col_widths.
  change (map (col_width rows_data) (seq 0 max_cols))
    with (col_width rows_data <$> seq 0 max_cols).
  now rewrite list_lookup_fmap, lookup_seq_lt.
Qed.

Lemma rows_fit_col_widths (rows_data : list (list str)) (max_cols : nat)
    (row : list str) :
  In row rows_data -> length row = max_cols ->
  fits row (compute_col_widths rows_data max_cols).
Proof.
  intros Hin Hlen. apply Forall2_same_length_lookup_2.
  - now rewrite compute_col_widths_length.
  - intros j text width Htext Hwidth.
    assert (Hj : j < max_cols).
    { rewrite <- Hlen. eapply lookup_lt_Some. exact Htext. }
    rewrite compute_col_widths_lookup in Hwidth by assumption.
    injection Hwidth as <-. rewrite col_width_spec.
    pose proof (max_list_with_ge
      (fun r : list str => length (nth j r [])) rows_data row Hin) as Hmax.
    cbv beta in Hmax. rewrite (nth_lookup_Some _ _ _ _ Htext) in Hmax. lia.
Qed.

Lemma nth_map_lookup {A : Type} (f : A -> str) (l : list A) (j : nat) :
  nth j (map f l) [] = match l !! j with Some x => f x | None => [] end.
Proof.
  revert j. induction l as [| x l IH]; intros [| j]; simpl; auto.
Qed.

Section ColumnWidths.

Context {Paragraph : Type} (paragraph_to_text : Paragraph -> str).
Implicit Types (t : Table Paragraph) (r : TableRow Paragraph).

Lemma table_max_cols_spec t :
  table_max_cols paragraph_to_text t = max_list_with (fun r => length (tc r)) (tr t).
Proof.
  unfold table_max_cols, extract_rows. rewrite compute_max_cols_spec.
  apply max_list_with_ext_map. intros r. unfold row_cells.
  now rewrite length_map.
Qed.

Lemma table_col_widths_lookup t j :
  j < table_max_cols paragraph_to_text t ->
  table_col_widths paragraph_to_text t !! j
  = Some (Nat.max 1
            (max_list_with
               (fun r => length (flat_cell_text paragraph_to_text r j)) (tr t))).
Proof.
  intros Hj. unfold table_col_widths.
  rewrite compute_col_widths_lookup by exact Hj.
  rewrite col_width_spec. do 2 f_equal.
  rewrite (max_list_with_ext_map _
             (fun row : list str => length (nth j row [])) (pad_row _)).
  - unfold extract_rows. apply max_list_with_ext_map.
    intros r. unfold row_cells, flat_cell_text.
    now rewrite nth_map_lookup.
  - intros row. now rewrite nth_pad_row.
Qed.

(** C6: the ASCII renderer computes one width per column of the widest
    row; the width of a column is the largest length, over all rows, of the
    column's cell text with newlines replaced by spaces, and not less
    than 1. *)
Theorem C6_column_width_is_max_text_length_min_1 t :
  tr t <> [] ->
  let max_cols := max_list_with (fun r => length (tc r)) (tr t) in
  length (table_col_widths paragraph_to_text t) = max_cols
  /\ forall j, j < max_cols ->
       exists width,
         table_col_widths paragraph_to_text t !! j = Some width
         /\ width = Nat.max 1
              (max_list_with
                 (fun r => length (flat_cell_text paragraph_to_text r j))
                 (tr t))
         /\ 1 <= width
         /\ (forall r, In r (tr t) ->
               length (flat_cell_text paragraph_to_text r j) <= width).
Proof.
  intros _. cbv zeta. rewrite <- table_max_cols_spec. split.
  - unfold table_col_widths. apply compute_col_widths_length.
  - intros j Hj. eexists. split; [apply table_col_widths_lookup; exact Hj |].
    split; [reflexivity |]. split; [lia |].
    intros r Hr.
    pose proof (max_list_with_ge
      (fun r => length (flat_cell_text paragraph_to_text r j)) (tr t) r Hr) as Hmax.
    cbv beta in Hmax. lia.
Qed.

End ColumnWidths.

(** ** Lines of the ASCII box *)

Lemma split_nl_aux_no_nl (s : str) :
  no_nl s -> forall cur, split_nl_aux cur s = [cur ++ s].
Proof.
  induction 1 as [| ch s Hch Hs IH]; intros cur; simpl.
  - now rewrite app_nil_r.
  - destruct (decide (ch = NL)) as [-> | _]; [congruence |].
    rewrite IH. now rewrite <- app_assoc.
Qed.

Lemma split_nl_aux_app (s rest : str) :
  no_nl s ->
  forall cur, split_nl_aux cur (s ++ NL :: rest)
              = (cur ++ s) :: split_nl_aux [] rest.
Proof.
  induction 1 as [| ch s Hch Hs IH]; intros cur; simpl.
  - destruct (decide (NL = NL)) as [_ | Hne]; [| congruence].
    now rewrite app_nil_r.
  - destruct (decide (ch = NL)) as [-> | _]; [congruence |].
    rewrite IH. now rewrite <- app_assoc.
Qed.

Lemma split_nl_join (lines : list str) :
  lines <> [] -> Forall no_nl lines -> split_nl (join [NL] lines) = lines.
Proof.
  intros Hne Hall. unfold split_nl.
  induction Hall as [| line lines Hline Hlines IH]; [congruence |].
  destruct lines as [| line' lines].
  - simpl. now rewrite split_nl_aux_no_nl.
  - rewrite join_cons by discriminate.
    change (line ++ [NL] ++ join [NL] (line' :: lines))
      with (line ++ NL :: join [NL] (line' :: lines)).
    rewrite split_nl_aux_app by assumption.
    rewrite IH by discriminate. reflexivity.
Qed.

Lemma no_nl_app (s1 s2 : str) : no_nl s1 -> no_nl s2 -> no_nl (s1 ++ s2).
Proof. unfold no_nl. intros H1 H2. apply Forall_app. now split. Qed.

Lemma no_nl_replicate (n : nat) (ch : ascii) :
  ch <> NL -> no_nl (replicate n ch).
Proof. intros H. now apply Forall_replicate. Qed.

Lemma no_nl_join (sep : str) (parts : list str) :
  no_nl sep -> Forall no_nl parts -> no_nl (join sep parts).
Proof.
  intros Hsep Hparts. induction Hparts as [| p parts Hp Hps IH].
  - constructor.
  - destruct parts as [| q parts]; [exact Hp |].
    rewrite join_cons by discriminate.
    apply no_nl_app; [exact Hp |]. now apply no_nl_app.
Qed.

Lemma no_nl_replace (text : str) : no_nl (replace_char NL SP text).
Proof.
  unfold no_nl, replace_char. induction text as [| ch text IH]; simpl.
  - constructor.
  - constructor; [| exact IH].
    destruct (decide (ch = NL)); [discriminate | assumption].
Qed.

Lemma str_mul_length (ch : ascii) (n : Z) : length (str_mul ch n) = Z.to_nat n.
Proof. unfold str_mul. apply length_replicate. Qed.

Lemma sum_list_plus_2 (col_widths : list nat) :
  sum_list (map (fun w => w + 2) col_widths)
  = sum_list col_widths + 2 * length col_widths.
Proof.
  induction col_widths as [| w ws IH]; simpl; [reflexivity |].
  rewrite IH. lia.
Qed.

Lemma h_segments_length (col_widths : list nat) :
  map (fun p : str => length p)
    (map (fun w => str_mul h_char (Z.of_nat w + 2)) col_widths)
  = map (fun w => w + 2) col_widths.
Proof.
  rewrite map_map. apply map_ext. intros w. rewrite str_mul_length. lia.
Qed.

Lemma build_h_line_length (col_widths : list nat) (left right inside_v : bool) :
  length (build_h_line col_widths (length col_widths) left right inside_v)
  = line_width col_widths.
Proof.
  unfold build_h_line, line_width. rewrite !length_app. simpl length.
  destruct inside_v.
  - rewrite join_length, h_segments_length, sum_list_plus_2, !length_map.
    simpl length. lia.
  - rewrite str_mul_length.
    destruct col_widths as [| w ws]; [reflexivity |].
    simpl length. simpl sum_list_with. lia.
Qed.

Lemma build_h_line_no_nl (col_widths : list nat) (max_cols : nat)
    (left right inside_v : bool) :
  no_nl (build_h_line col_widths max_cols left right inside_v).
Proof.
  unfold build_h_line.
  assert (Hh : h_char <> NL) by discriminate.
  assert (Hc : corner <> NL) by discriminate.
  apply no_nl_app; [destruct left; now repeat constructor |].
  apply no_nl_app; [| destruct right; now repeat constructor].
  destruct inside_v.
  - apply no_nl_join; [now repeat constructor |].
    induction col_widths as [| w ws IH]; constructor; [| exact IH].
    now apply no_nl_replicate.
  - now apply no_nl_replicate.
Qed.

Lemma data_cells_zip (col_widths : list nat) (row : list str) :
  forall col_idx,
    col_idx + length row <= length col_widths ->
    data_cells col_widths col_idx row
    = Some (zip_with cell_box row (drop col_idx col_widths)).
Proof.
  induction row as [| text row IH]; intros col_idx Hlen; simpl in *.
  - reflexivity.
  - destruct (lookup_lt_is_Some_2 col_widths col_idx) as [width Hw]; [lia |].
    rewrite Hw, IH by lia. rewrite (drop_S _ _ _ Hw). reflexivity.
Qed.

Lemma cell_box_length (text : str) (width : nat) :
  length text <= width -> length (cell_box text width) = width + 2.
Proof.
  intros H. unfold cell_box, ljust.
  rewrite !length_app, length_replicate. simpl. lia.
Qed.

Lemma cell_box_no_nl (text : str) (width : nat) :
  no_nl text -> no_nl (cell_box text width).
Proof.
  intros H. unfold cell_box, ljust.
  assert (Hs : SP <> NL) by discriminate.
  repeat apply no_nl_app; try assumption; try now repeat constructor.
  now apply no_nl_replicate.
Qed.

Lemma cells_length (row : list str) (col_widths : list nat) :
  fits row col_widths ->
  map (fun p : str => length p) (zip_with cell_box row col_widths)
  = map (fun w => w + 2) col_widths.
Proof.
  induction 1 as [| text width row ws Hfit _ IH]; simpl; [reflexivity |].
  rewrite IH. f_equal. now apply cell_box_length.
Qed.

Lemma cells_no_nl (row : list str) :
  Forall no_nl row ->
  forall col_widths, Forall no_nl (zip_with cell_box row col_widths).
Proof.
  induction 1 as [| text row Htext _ IH]; intros [| w ws]; simpl;
    try constructor; [now apply cell_box_no_nl | apply IH].
Qed.

Lemma fits_length (row : list str) (col_widths : list nat) :
  fits row col_widths -> length row = length col_widths.
Proof. apply Forall2_length. Qed.

Lemma build_data_row_spec (col_widths : list nat) (row : list str)
    (left right inside_v : bool) :
  length row <= length col_widths ->
  build_data_row col_widths row left right inside_v
  = Some ([if left then v_char else SP]
          ++ join [if inside_v then v_char else SP]
               (zip_with cell_box row col_widths)
          ++ [if right then v_char else SP]).
Proof.
  intros Hlen. unfold build_data_row.
  rewrite data_cells_zip by (simpl; lia). rewrite drop_0.
  now destruct inside_v.
Qed.

Lemma build_data_row_length (col_widths : list nat) (row : list str)
    (left right inside_v : bool) (line : str) :
  fits row col_widths ->
  build_data_row col_widths row left right inside_v = Some line ->
  length line = line_width col_widths.
Proof.
  intros Hfit Hline. pose proof (fits_length _ _ Hfit) as Hlen.
  rewrite build_data_row_spec in Hline by lia. injection Hline as <-.
  unfold line_width. cbn [length]. rewrite length_app, join_length.
  rewrite cells_length, sum_list_plus_2 by assumption.
  rewrite length_zip_with. simpl length. lia.
Qed.

Lemma build_data_row_no_nl (col_widths : list nat) (row : list str)
    (left right inside_v : bool) (line : str) :
  length row <= length col_widths -> Forall no_nl row ->
  build_data_row col_widths row left right inside_v = Some line ->
  no_nl line.
Proof.
  intros Hlen Hrow Hline. rewrite build_data_row_spec in Hline by lia.
  injection Hline as <-.
  assert (Hv : v_char <> NL) by discriminate.
  assert (Hs : SP <> NL) by discriminate.
  constructor; [now destruct left |].
  apply no_nl_app; [| destruct right; now repeat constructor].
  apply no_nl_join; [destruct inside_v; now repeat constructor |].
  now apply cells_no_nl.
Qed.

Lemma rule_uniform (col_widths : list nat) (max_cols : nat)
    (left right inside_v : bool) :
  length col_widths = max_cols ->
  uniform_line col_widths
    (build_h_line col_widths max_cols left right inside_v).
Proof.
  intros <-. split; [apply build_h_line_length | apply build_h_line_no_nl].
Qed.

Lemma Forall_optional {A : Type} (P : A -> Prop) (b : bool) (x : A) :
  P x -> Forall P (if b then [x] else []).
Proof. intros H. destruct b; repeat constructor. exact H. Qed.

Lemma data_lines_ok (col_widths : list nat) (max_cols : nat)
    (border_info : BorderInfo) (n_rows : nat) (rows : list (list str)) :
  length col_widths = max_cols ->
  Forall (fun row => fits row col_widths /\ Forall no_nl row) rows ->
  forall row_idx,
  exists body,
    data_lines col_widths max_cols border_info n_rows row_idx rows = Some body
    /\ Forall (uniform_line col_widths) body
    /\ Forall (rule_or_data_row col_widths max_cols border_info rows) body
    /\ length rows <= length body.
Proof.
  intros Hw.
  induction 1 as [| row rows [Hfit Hnl] _ IH]; intros row_idx.
  - exists []. repeat split; constructor.
  - pose proof (fits_length _ _ Hfit) as Hlen.
    destruct (IH (S row_idx)) as (more & Hmore & Hunif & Hkind & Hcount).
    simpl. rewrite Hmore.
    destruct (build_data_row col_widths row (left border_info)
                (right border_info) (inside_v border_info))
      as [line |] eqn:Hline.
    2: { rewrite build_data_row_spec in Hline by lia. discriminate. }
    eexists. split; [reflexivity |].
    assert (Hkind' : Forall (rule_or_data_row col_widths max_cols
                               border_info (row :: rows)) more).
    { eapply Forall_impl; [exact Hkind |].
      intros l [Hl | (r & Hr & Hl)]; [now left | right].
      exists r. split; [now right | exact Hl]. }
    split; [| split].
    + constructor.
      * split; [eapply build_data_row_length | eapply build_data_row_no_nl];
          eauto; lia.
      * apply Forall_app. split; [| exact Hunif].
        apply Forall_optional, rule_uniform, Hw.
    + constructor.
      * right. exists row. split; [now left | exact Hline].
      * apply Forall_app. split; [| exact Hkind'].
        apply Forall_optional. now left.
    + simpl. rewrite length_app. lia.
Qed.

Lemma ascii_lines_ok (rows_data : list (list str)) (border_info : BorderInfo) :
  Forall (Forall no_nl) rows_data ->
  let max_cols := compute_max_cols rows_data in
  let padded := map (pad_row max_cols) rows_data in
  let col_widths := compute_col_widths padded max_cols in
  exists lines,
    ascii_lines padded max_cols border_info = Some lines
    /\ Forall (uniform_line col_widths) lines
    /\ Forall (rule_or_data_row col_widths max_cols border_info padded) lines
    /\ length rows_data <= length lines.
Proof.
  intros Hnl max_cols padded col_widths.
  assert (Hw : length col_widths = max_cols)
    by apply compute_col_widths_length.
  assert (Hrows : Forall (fun row => fits row col_widths /\ Forall no_nl row)
                    padded).
  { apply List.Forall_forall. intros row Hin. split.
    - apply rows_fit_col_widths; [exact Hin |].
      now apply padded_rows_length.
    - apply in_map_iff in Hin. destruct Hin as (row0 & <- & Hin).
      unfold pad_row. apply Forall_app. split.
      + eapply List.Forall_forall in Hnl; eauto.
      + apply Forall_replicate. constructor. }
  destruct (data_lines_ok col_widths max_cols border_info (length padded)
              padded Hw Hrows 0) as (body & Hbody & Hunif & Hkind & Hcount).
  unfold ascii_lines. fold col_widths.
  rewrite Hbody. eexists. split; [reflexivity |].
  repeat split.
  - repeat (apply Forall_app; split); try exact Hunif;
      apply Forall_optional, rule_uniform, Hw.
  - repeat (apply Forall_app; split); try exact Hkind;
      apply Forall_optional; now left.
  - rewrite !length_app. unfold padded in Hcount.
    rewrite length_map in Hcount. lia.
Qed.

Lemma build_data_row_head (col_widths : list nat) (row : list str)
    (left right inside_v : bool) (line : str) :
  build_data_row col_widths row left right inside_v = Some line ->
  exists rest, line = (if left then v_char else SP) :: rest.
Proof.
  unfold build_data_row. destruct (data_cells col_widths 0 row); [| discriminate].
  intros [= <-]. eexists. reflexivity.
Qed.

Section AsciiBox.

Context {Paragraph : Type} (paragraph_to_text : Paragraph -> str).
Implicit Types (t : Table Paragraph) (r : TableRow Paragraph).

Lemma extract_rows_no_nl t :
  Forall (Forall no_nl) (extract_rows paragraph_to_text t).
Proof.
  unfold extract_rows, row_cells. apply List.Forall_forall. intros row Hin.
  apply in_map_iff in Hin. destruct Hin as (r & <- & _).
  apply List.Forall_forall. intros text Hin.
  apply in_map_iff in Hin. destruct Hin as (c & <- & _).
  apply no_nl_replace.
Qed.

Lemma table_to_ascii_ok t border_info :
  tr t <> [] ->
  exists lines,
    table_to_ascii paragraph_to_text t border_info = Some (join [NL] lines)
    /\ ascii_lines (padded_rows paragraph_to_text t) (table_max_cols paragraph_to_text t)
         (effective_borders t border_info) = Some lines
    /\ lines <> []
    /\ Forall (uniform_line (table_col_widths paragraph_to_text t)) lines
    /\ Forall (rule_or_data_row (table_col_widths paragraph_to_text t)
                 (table_max_cols paragraph_to_text t)
                 (effective_borders t border_info)
                 (padded_rows paragraph_to_text t)) lines.
Proof.
  intros Hne. rewrite table_to_ascii_rows by exact Hne.
  destruct (ascii_lines_ok (extract_rows paragraph_to_text t)
              (effective_borders t border_info) (extract_rows_no_nl t))
    as (lines & Hlines & Hunif & Hkind & Hcount).
  exists lines. unfold ascii_of_rows, padded_rows, table_max_cols.
  fold (effective_borders t border_info). rewrite Hlines.
  repeat split; try assumption.
  intros ->. unfold extract_rows in Hcount. rewrite length_map in Hcount.
  destruct (tr t); [congruence | simpl in Hcount; lia].
Qed.

Lemma table_to_ascii_total t border_info :
  exists s, table_to_ascii paragraph_to_text t border_info = Some s.
Proof.
  destruct (tr t) as [| r rows] eqn:Htr.
  - exists []. unfold table_to_ascii. now rewrite Htr.
  - destruct (table_to_ascii_ok t border_info) as (lines & H & _); [congruence |].
    eauto.
Qed.

(** C10: [table_to_ascii] never fails on an out-of-range column; every
    row is padded to the maximum column count; and when the rendering is
    not empty, all its lines have the same length. *)
Theorem C10_ascii_lines_have_equal_length t border_info :
  (exists s, table_to_ascii paragraph_to_text t border_info = Some s)
  /\ Forall (fun row => length row = table_max_cols paragraph_to_text t)
       (padded_rows paragraph_to_text t)
  /\ (forall r, In r (tr t) ->
        In (row_cells paragraph_to_text r
            ++ replicate (table_max_cols paragraph_to_text t - length (tc r)) [])
           (padded_rows paragraph_to_text t))
  /\ (forall s,
        table_to_ascii paragraph_to_text t border_info = Some s -> s <> [] ->
        Forall (fun line => length line
                            = line_width (table_col_widths paragraph_to_text t))
          (split_nl s)).
Proof.
  split; [apply table_to_ascii_total |]. split; [| split].
  - apply List.Forall_forall. intros row Hin. now apply padded_rows_length.
  - intros r Hr. unfold padded_rows, extract_rows. rewrite map_map.
    apply in_map_iff. exists r. split; [| exact Hr].
    unfold pad_row, row_cells. now rewrite length_map.
  - intros s Hs Hne. destruct (tr t) as [| r rows] eqn:Htr.
    + unfold table_to_ascii in Hs. rewrite Htr in Hs. congruence.
    + destruct (table_to_ascii_ok t border_info)
        as (lines & Hlines & _ & Hnonempty & Hunif & _); [congruence |].
      rewrite Hlines in Hs. injection Hs as <-.
      rewrite split_nl_join.
      * eapply Forall_impl; [exact Hunif |]. now intros line [Hlen _].
      * exact Hnonempty.
      * eapply Forall_impl; [exact Hunif |]. now intros line [_ Hnl].
Qed.

(** C7, as amended: every line of the ASCII rendering is either the
    horizontal rule or a data row (which starts with a bar or a space);
    with [inside_v] the interior of the rule is one run of dashes of length
    width+2 per column, joined with '+'; without [inside_v] it is one run of
    dashes of length sum(col_widths) + 3*(ncols-1) + 2 when the table has at
    least one column, and is empty when no row has a cell. *)
Theorem C7_horizontal_rule_interior t border_info :
  tr t <> [] ->
  let col_widths := table_col_widths paragraph_to_text t in
  let max_cols := table_max_cols paragraph_to_text t in
  let info := effective_borders t border_info in
  let left_char := if left info then corner else h_char in
  let right_char := if right info then corner else h_char in
  let rule := build_h_line col_widths max_cols (left info) (right info)
                (inside_v info) in
  (exists lines,
      table_to_ascii paragraph_to_text t border_info = Some (join [NL] lines)
      /\ Forall (fun line =>
                   line = rule
                   \/ exists rest, line = v_char :: rest \/ line = SP :: rest)
           lines)
  /\ (inside_v info = true ->
      rule = [left_char]
             ++ join [corner] (map (fun w => replicate (w + 2) h_char) col_widths)
             ++ [right_char])
  /\ (inside_v info = false -> 1 <= max_cols ->
      rule = [left_char]
             ++ replicate (sum_list col_widths + 3 * (max_cols - 1) + 2) h_char
             ++ [right_char])
  /\ (inside_v info = false -> max_cols = 0 ->
      rule = [left_char] ++ [] ++ [right_char]).
Proof.
  intros Hne col_widths max_cols info left_char right_char rule.
  split; [| split; [| split]].
  - destruct (table_to_ascii_ok t border_info Hne)
      as (lines & Hlines & _ & _ & _ & Hkind).
    exists lines. split; [exact Hlines |].
    eapply Forall_impl; [exact Hkind |].
    intros line [Hrule | (row & _ & Hrow)]; [now left | right].
    apply build_data_row_head in Hrow. destruct Hrow as [rest ->].
    exists rest. destruct (left _); auto.
  - intros Hv. unfold rule, build_h_line. rewrite Hv. do 3 f_equal.
    apply map_ext. intros w. unfold str_mul. f_equal. lia.
  - intros Hv Hcols. unfold rule, build_h_line. rewrite Hv. do 2 f_equal.
    unfold str_mul. f_equal. lia.
  - intros Hv Hcols. unfold rule, build_h_line. rewrite Hv, Hcols.
    assert (Hw : col_widths = []).
    { apply length_zero_iff_nil. unfold col_widths, table_col_widths.
      rewrite compute_col_widths_length. exact Hcols. }
    rewrite Hw. reflexivity.
Qed.

(** C4: for a table with rows, explicit [ascii] mode draws the box with
    all six flags set, whatever borders the table and its cells declare:
    the rendering depends on the cell texts only, and it opens and closes
    with a full rule. *)
Theorem C4_explicit_ascii_forces_full_box t :
  tr t <> [] ->
  let col_widths := table_col_widths paragraph_to_text t in
  let rule := [corner]
              ++ join [corner] (map (fun w => replicate (w + 2) h_char) col_widths)
              ++ [corner] in
  table_to_text paragraph_to_text (Some t) Ascii
  = table_to_ascii paragraph_to_text t (Some full_borders)
  /\ (forall t' : Table Paragraph,
        extract_rows paragraph_to_text t' = extract_rows paragraph_to_text t ->
        table_to_text paragraph_to_text (Some t') Ascii
        = table_to_text paragraph_to_text (Some t) Ascii)
  /\ (exists body,
        table_to_text paragraph_to_text (Some t) Ascii
        = Some (join [NL] ([rule] ++ body ++ [rule]))).
Proof.
  intros Hne col_widths rule.
  assert (Hascii : forall t' : Table Paragraph, tr t' <> [] ->
            table_to_text paragraph_to_text (Some t') Ascii
            = ascii_of_rows (extract_rows paragraph_to_text t') full_borders).
  { intros t' Hne'. rewrite <- (table_to_ascii_rows _ t' (Some full_borders) Hne').
    unfold table_to_text. destruct (tr t'); [congruence | reflexivity]. }
  split; [| split].
  - rewrite Hascii by exact Hne. now rewrite table_to_ascii_rows.
  - intros t' Hrows. rewrite !Hascii; [now rewrite Hrows | exact Hne |].
    intros Hnil. apply Hne. unfold extract_rows in Hrows.
    rewrite Hnil in Hrows. simpl in Hrows. symmetry in Hrows.
    now apply map_eq_nil in Hrows.
  - destruct (table_to_ascii_ok t (Some full_borders) Hne)
      as (lines & Hlines & Hbody & _).
    rewrite Hascii, <- table_to_ascii_rows with (border_info := Some full_borders)
      by exact Hne.
    rewrite Hlines. unfold ascii_lines in Hbody. simpl in Hbody.
    destruct (data_lines _ _ _ _ _ _) as [body |]; [| discriminate].
    injection Hbody as <-. exists body. do 2 f_equal.
    assert (Hrule : build_h_line
                      (compute_col_widths (padded_rows paragraph_to_text t)
                         (table_max_cols paragraph_to_text t))
                      (table_max_cols paragraph_to_text t) true true true = rule).
    { unfold build_h_line, rule. do 3 f_equal.
      apply map_ext. intros w. unfold str_mul. f_equal. lia. }
    rewrite Hrule. reflexivity.
Qed.

End AsciiBox.

(** [auto] draws the detected borders only, explicit [ascii] the full box. *)
Example auto_uses_detected_borders :
  table_to_text Sample.render (Some Cases.t_top) Auto
  = Some (lit "-----------" ++ [NL] ++ lit "  A1   A2  ")
  /\ table_to_text Sample.render (Some Cases.t_top) Ascii
     = Some (lit "+----+----+" ++ [NL] ++ lit "| A1 | A2 |" ++ [NL]
             ++ lit "+----+----+").
Proof. split; reflexivity. Qed.

(** Short rows are filled with empty cells. *)
Example ragged_rows_are_padded :
  table_to_text Sample.render (Some Cases.t_ragged) Ascii
  = Some (lit "+------+-----+---+" ++ [NL]
          ++ lit "| ab   | c   |   |" ++ [NL]
          ++ lit "+------+-----+---+" ++ [NL]
          ++ lit "| defg |     |   |" ++ [NL]
          ++ lit "+------+-----+---+" ++ [NL]
          ++ lit "|      | x y | z |" ++ [NL]
          ++ lit "+------+-----+---+").
Proof. reflexivity. Qed.

(** C7, as stated, fails: for a table whose only row has no cell, drawn
    without [inside_v], the rule is "--": its interior is empty, whereas
    sum(col_widths) + 3*(ncols-1) + 2 is -1. *)
Lemma C7_counterexample :
  let t := Cases.t_no_cells in
  let col_widths := table_col_widths Sample.render t in
  let max_cols := table_max_cols Sample.render t in
  tr t <> []
  /\ table_to_text Sample.render (Some t) Auto
     = Some (lit "--" ++ [NL] ++ lit "  ")
  /\ inside_v (detect_borders t) = false
  /\ build_h_line col_widths max_cols false false false
     = [h_char] ++ [] ++ [h_char]
  /\ (Z.of_nat (sum_list col_widths) + 3 * (Z.of_nat max_cols - 1) + 2 = -1)%Z
  /\ ~ (exists inner : str,
          build_h_line col_widths max_cols false false false
          = [h_char] ++ inner ++ [h_char]
          /\ Z.of_nat (length inner)
             = (Z.of_nat (sum_list col_widths)
                + 3 * (Z.of_nat max_cols - 1) + 2)%Z).
Proof.
  cbv zeta. split; [discriminate |]. repeat split.
  intros (inner & _ & Hlen).
  change (Z.of_nat (length inner) = (-1)%Z) in Hlen. lia.
Qed.

(** ** The theorems at concrete tables *)

Lemma C1_witness :
  detect_borders (mkTable (Some Cases.top_props) (tr Cases.t22))
  = mkBorderInfo true false false false false false
  /\ detect_borders Cases.t_top
     = detect_borders (mkTable (Some Cases.top_props) (tr Cases.t22)).
Proof.
  exact (proj1 (proj2 (@C1_visibility_and_table_level_precedence Sample.Para))
           Cases.t_top Cases.top_props Cases.top_borders
           eq_refl eq_refl eq_refl (tr Cases.t22)).
Defined.

Lemma C3_witness :
  table_to_text Sample.render (Some Cases.t_ragged) Auto
  = table_to_text Sample.render (Some Cases.t_ragged) Tabs.
Proof.
  apply (C3_auto_without_borders_is_tabs Sample.render Cases.t_ragged).
  - intros pr borders Hpr. discriminate Hpr.
  - intros r c Hr Hc pr cb Hpr. simpl in Hr.
    repeat (destruct Hr as [<- | Hr]; [simpl in Hc |]); try contradiction;
      repeat (destruct Hc as [<- | Hc]; [discriminate Hpr |]); contradiction.
Defined.

Lemma C4_witness :
  table_to_text Sample.render (Some Cases.t_top) Ascii
  = table_to_ascii Sample.render Cases.t_top (Some full_borders).
Proof.
  refine (proj1 (C4_explicit_ascii_forces_full_box Sample.render Cases.t_top _)).
  discriminate.
Defined.

Lemma C5_witness :
  detect_borders Cases.t22 = mkBorderInfo false false false false true false.
Proof.
  refine (C5_top_left_bottom_border_gives_inside_h Cases.t22 _ _ _ _
            Cases.bottom_only _ eq_refl _ eq_refl eq_refl eq_refl eq_refl
            eq_refl eq_refl _ _ _);
    intros pr borders Hpr; discriminate Hpr.
Defined.

Lemma C6_witness :
  length (table_col_widths Sample.render Cases.t_ragged) = 3
  /\ table_col_widths Sample.render Cases.t_ragged = [4; 3; 1].
Proof.
  split; [| reflexivity].
  refine (proj1 (C6_column_width_is_max_text_length_min_1 Sample.render
                   Cases.t_ragged _)).
  discriminate.
Defined.

Lemma C7_witness :
  build_h_line (table_col_widths Sample.render Cases.t_top)
    (table_max_cols Sample.render Cases.t_top) false false false
  = lit "-----------".
Proof.
  refine (proj1 (proj2 (proj2 (C7_horizontal_rule_interior Sample.render
                                 Cases.t_top None _))) _ _).
  - discriminate.
  - reflexivity.
  - vm_compute. lia.
Defined.

Lemma C8_witness :
  table_to_text Sample.render (Some Cases.t_empty) Auto = Some [].
Proof.
  refine (proj2 (proj2 (C8_missing_or_empty_renders_empty_string Sample.render))
            Cases.t_empty Auto _).
  reflexivity.
Defined.

Lemma C10_witness :
  Forall (fun line => length line = 18)
    (split_nl (lit "+------+-----+---+" ++ [NL]
               ++ lit "| ab   | c   |   |" ++ [NL]
               ++ lit "+------+-----+---+" ++ [NL]
               ++ lit "| defg |     |   |" ++ [NL]
               ++ lit "+------+-----+---+" ++ [NL]
               ++ lit "|      | x y | z |" ++ [NL]
               ++ lit "+------+-----+---+")).
Proof.
  exact (proj2 (proj2 (proj2 (C10_ascii_lines_have_equal_length Sample.render
                                Cases.t_ragged (Some full_borders))))
           (lit "+------+-----+---+" ++ [NL]
            ++ lit "| ab   | c   |   |" ++ [NL]
            ++ lit "+------+-----+---+" ++ [NL]
            ++ lit "| defg |     |   |" ++ [NL]
            ++ lit "+------+-----+---+" ++ [NL]
            ++ lit "|      | x y | z |" ++ [NL]
            ++ lit "+------+-----+---+")
           eq_refl ltac:(discriminate)).
Defined.

(** * Further properties of the converter *)

(** ** Joining and splitting *)

Lemma join_nil_iff (sep : str) (parts : list str) :
  Forall (fun p => p <> []) parts -> join sep parts = [] <-> parts = [].
Proof.
  intros Hall. split; [| now intros ->].
  destruct Hall as [| p parts Hp Hparts]; [reflexivity |].
  destruct parts as [| q parts]; simpl.
  - intros ->. congruence.
  - intros H. apply app_eq_nil in H. destruct H as [-> _]. congruence.
Qed.

Lemma join_app (sep : str) (xs ys : list str) :
  xs <> [] -> ys <> [] ->
  join sep (xs ++ ys) = join sep xs ++ sep ++ join sep ys.
Proof.
  intros Hxs Hys. induction xs as [| x xs IH]; [congruence |].
  destruct xs as [| x' xs].
  - simpl app. now rewrite join_cons.
  - change ((x :: x' :: xs) ++ ys) with (x :: ((x' :: xs) ++ ys)).
    rewrite !join_cons by (try discriminate; destruct ys; discriminate).
    rewrite IH by discriminate. now rewrite <- !app_assoc.
Qed.

Lemma filter_nonempty_all (texts : list str) :
  Forall (fun p => p <> []) (List.filter nonempty texts).
Proof.
  induction texts as [| [| ch text] texts IH]; simpl; [constructor | exact IH |].
  constructor; [discriminate | exact IH].
Qed.

Lemma filter_nonempty_nil (texts : list str) :
  List.filter nonempty texts = [] <-> forall text, In text texts -> text = [].
Proof.
  induction texts as [| [| ch text] texts IH]; simpl.
  - split; [intros _ text [] | reflexivity].
  - rewrite IH. split.
    + intros H text [<- | Hin]; [reflexivity | now apply H].
    + intros H text Hin. apply H. now right.
  - split; [discriminate |]. intros H.
    specialize (H (ch :: text) (or_introl eq_refl)). discriminate.
Qed.

Section CellTextMore.

Context {Paragraph : Type} (paragraph_to_text : Paragraph -> str).

Lemma in_paragraph_texts (items : list (CellContent Paragraph)) (text : str) :
  In text (paragraph_texts paragraph_to_text items)
  <-> exists p, In (CParagraph p) items /\ paragraph_to_text p = text.
Proof.
  unfold paragraph_texts. rewrite in_flat_map. split.
  - intros ([p | t] & Hin & Htext); simpl in Htext; [| contradiction].
    destruct Htext as [<- | []]. eauto.
  - intros (p & Hin & <-). exists (CParagraph p). split; [exact Hin | now left].
Qed.

(** The text of a cell is empty exactly when every paragraph of the cell
    renders to the empty text (a cell without paragraphs included). *)
Theorem cell_to_text_empty_iff (c : TableCell Paragraph) :
  cell_to_text paragraph_to_text (Some c) = []
  <-> forall p, In (CParagraph p) (content c) -> paragraph_to_text p = [].
Proof.
  rewrite cell_to_text_spec, join_nil_iff by apply filter_nonempty_all.
  rewrite filter_nonempty_nil. split.
  - intros H p Hp. apply H. apply in_paragraph_texts. eauto.
  - intros H text Hin. apply in_paragraph_texts in Hin.
    destruct Hin as (p & Hp & <-). now apply H.
Qed.

(** The text of a cell whose content is [xs] followed by [ys] is the
    text of [xs], a newline and the text of [ys]; when one of the two texts
    is empty it is the other one, without a newline. *)
Theorem cell_to_text_app (pr pr1 pr2 : option TableCellProperties)
    (xs ys : list (CellContent Paragraph)) :
  cell_to_text paragraph_to_text (Some (mkTableCell pr (xs ++ ys)))
  = match cell_to_text paragraph_to_text (Some (mkTableCell pr1 xs)),
          cell_to_text paragraph_to_text (Some (mkTableCell pr2 ys)) with
    | [], b => b
    | a, [] => a
    | a, b => a ++ [NL] ++ b
    end.
Proof.
  rewrite !cell_to_text_spec. simpl content.
  rewrite paragraph_texts_app, List.filter_app.
  set (l1 := List.filter nonempty (paragraph_texts paragraph_to_text xs)).
  set (l2 := List.filter nonempty (paragraph_texts paragraph_to_text ys)).
  assert (H1 : Forall (fun p : str => p <> []) l1) by apply filter_nonempty_all.
  assert (H2 : Forall (fun p : str => p <> []) l2) by apply filter_nonempty_all.
  clearbody l1 l2.
  destruct l1 as [| x l1]; [reflexivity |].
  destruct (join [NL] (x :: l1)) as [| ch a] eqn:Ha.
  { apply join_nil_iff in Ha; [discriminate | exact H1]. }
  destruct l2 as [| y l2].
  - rewrite app_nil_r. now rewrite Ha.
  - destruct (join [NL] (y :: l2)) as [| ch' b] eqn:Hb.
    { apply join_nil_iff in Hb; [discriminate | exact H2]. }
    rewrite join_app by discriminate. now rewrite Ha, Hb.
Qed.

End CellTextMore.

(** ** Aggregation of the cell borders *)

Lemma enum_fold_flag {A St : Type} (body : nat -> A -> St -> St)
    (f : St -> bool) (g : nat -> A -> bool) :
  (forall i x s, f (body i x s) = f s || g i x) ->
  forall l i s, f (enum_fold body i l s) = f s || any_indexed g i l.
Proof.
  intros Hbody. induction l as [| x l IH]; intros i s; simpl.
  - now rewrite orb_false_r.
  - now rewrite IH, Hbody, orb_assoc.
Qed.

Lemma any_indexed_true {A : Type} (g : nat -> A -> bool) (l : list A) :
  forall i,
    any_indexed g i l = true
    <-> exists k x, l !! k = Some x /\ g (i + k) x = true.
Proof.
  induction l as [| y l IH]; intros i; simpl.
  - split; [discriminate | intros (k & x & Hk & _); discriminate].
  - rewrite orb_true_iff, IH. split.
    + intros [Hg | (k & x & Hk & Hg)].
      * exists 0, y. now rewrite Nat.add_0_r.
      * exists (S k), x. split; [exact Hk |].
        now replace (i + S k) with (S i + k) by lia.
    + intros ([| k] & x & Hk & Hg); simpl in Hk.
      * injection Hk as <-. left. now rewrite Nat.add_0_r in Hg.
      * right. exists k, x. split; [exact Hk |].
        now replace (S i + k) with (i + S k) by lia.
Qed.

Lemma In_lookup {A : Type} (x : A) (l : list A) :
  In x l <-> exists k, l !! k = Some x.
Proof. rewrite <- list_elem_of_In. apply list_elem_of_lookup. Qed.

Section Aggregation.

Context {Paragraph : Type}.
Implicit Types (t : Table Paragraph) (row : TableRow Paragraph)
  (cell : TableCell Paragraph) (rows : list (TableRow Paragraph)).

Lemma scan_cells_flag (f : BorderInfo -> bool)
    (g : nat -> nat -> nat -> nat -> TableCell Paragraph -> bool) :
  (forall n r m c cell info,
      f (scan_cell n r m c cell info) = f info || g n r m c cell) ->
  forall rows,
    f (scan_cells rows BorderInfo_default) = true
    <-> f BorderInfo_default = true
        \/ exists i row j cell,
             rows !! i = Some row /\ tc row !! j = Some cell
             /\ g (length rows) i (length (tc row)) j cell = true.
Proof.
  intros Hcell rows. unfold scan_cells.
  rewrite (enum_fold_flag (scan_row (length rows)) f
             (fun r row =>
                any_indexed (g (length rows) r (length (tc row))) 0 (tc row))).
  - rewrite orb_true_iff, any_indexed_true.
    split; (intros [H | H]; [now left | right]).
    + destruct H as (i & row & Hi & H). apply any_indexed_true in H.
      destruct H as (j & cell & Hj & H). simpl in H. eauto 10.
    + destruct H as (i & row & j & cell & Hi & Hj & H).
      exists i, row. split; [exact Hi |].
      apply any_indexed_true. exists j, cell. now split.
  - intros r row info. unfold scan_row. now apply enum_fold_flag.
Qed.

Ltac scan_cell_flag :=
  intros; unfold scan_cell, cell_edge;
  destruct (tc_pr _) as [pr |];
    [destruct (tc_borders pr) as [cb |] |];
    rewrite ?andb_false_r, ?orb_false_r; try reflexivity;
  cbv zeta; unfold when;
  repeat match goal with
         | |- context [if ?b then _ else _] => destruct b
         end;
  simpl; rewrite ?orb_false_r, ?orb_true_r; reflexivity.

Lemma scan_cell_top n r m c cell info :
  top (scan_cell n r m c cell info)
  = top info || ((Z.of_nat r =? 0)%Z && cell_edge tc_top cell).
Proof. scan_cell_flag. Qed.

Lemma scan_cell_bottom n r m c cell info :
  bottom (scan_cell n r m c cell info)
  = bottom info
    || ((Z.of_nat r =? Z.of_nat n - 1)%Z && cell_edge tc_bottom cell).
Proof. scan_cell_flag. Qed.

Lemma scan_cell_left n r m c cell info :
  left (scan_cell n r m c cell info)
  = left info || ((Z.of_nat c =? 0)%Z && cell_edge tc_left cell).
Proof. scan_cell_flag. Qed.

Lemma scan_cell_right n r m c cell info :
  right (scan_cell n r m c cell info)
  = right info
    || ((Z.of_nat c =? Z.of_nat m - 1)%Z && cell_edge tc_right cell).
Proof. scan_cell_flag. Qed.

Lemma scan_cell_inside_h n r m c cell info :
  inside_h (scan_cell n r m c cell info)
  = inside_h info
    || (((Z.of_nat r <? Z.of_nat n - 1)%Z && cell_edge tc_bottom cell)
        || ((0 <? Z.of_nat r)%Z && cell_edge tc_top cell)).
Proof. scan_cell_flag. Qed.

Lemma scan_cell_inside_v n r m c cell info :
  inside_v (scan_cell n r m c cell info)
  = inside_v info
    || (((Z.of_nat c <? Z.of_nat m - 1)%Z && cell_edge tc_right cell)
        || ((0 <? Z.of_nat c)%Z && cell_edge tc_left cell)).
Proof. scan_cell_flag. Qed.

End Aggregation.

Section DetectedEdges.

Context {Paragraph : Type}.
Implicit Types (t : Table Paragraph) (row : TableRow Paragraph)
  (cell : TableCell Paragraph) (rows : list (TableRow Paragraph)).

Lemma scan_cells_top rows :
  top (scan_cells rows BorderInfo_default) = true
  <-> exists i row j cell,
        rows !! i = Some row /\ tc row !! j = Some cell
        /\ i = 0 /\ cell_edge tc_top cell = true.
Proof.
  rewrite (scan_cells_flag top _ scan_cell_top). split.
  - intros [H | (i & row & j & cell & Hi & Hj & Hg)]; [discriminate |].
    rewrite andb_true_iff, Z.eqb_eq in Hg. exists i, row, j, cell.
    intuition lia.
  - intros (i & row & j & cell & Hi & Hj & Hc & Hv). right.
    exists i, row, j, cell. rewrite andb_true_iff, Z.eqb_eq. intuition lia.
Qed.

Lemma scan_cells_bottom rows :
  bottom (scan_cells rows BorderInfo_default) = true
  <-> exists i row j cell,
        rows !! i = Some row /\ tc row !! j = Some cell
        /\ i + 1 = length rows /\ cell_edge tc_bottom cell = true.
Proof.
  rewrite (scan_cells_flag bottom _ scan_cell_bottom). split.
  - intros [H | (i & row & j & cell & Hi & Hj & Hg)]; [discriminate |].
    rewrite andb_true_iff, Z.eqb_eq in Hg. exists i, row, j, cell.
    intuition lia.
  - intros (i & row & j & cell & Hi & Hj & Hc & Hv). right.
    exists i, row, j, cell. rewrite andb_true_iff, Z.eqb_eq. intuition lia.
Qed.

Lemma scan_cells_left rows :
  left (scan_cells rows BorderInfo_default) = true
  <-> exists i row j cell,
        rows !! i = Some row /\ tc row !! j = Some cell
        /\ j = 0 /\ cell_edge tc_left cell = true.
Proof.
  rewrite (scan_cells_flag left _ scan_cell_left). split.
  - intros [H | (i & row & j & cell & Hi & Hj & Hg)]; [discriminate |].
    rewrite andb_true_iff, Z.eqb_eq in Hg. exists i, row, j, cell.
    intuition lia.
  - intros (i & row & j & cell & Hi & Hj & Hc & Hv). right.
    exists i, row, j, cell. rewrite andb_true_iff, Z.eqb_eq. intuition lia.
Qed.

Lemma scan_cells_right rows :
  right (scan_cells rows BorderInfo_default) = true
  <-> exists i row j cell,
        rows !! i = Some row /\ tc row !! j = Some cell
        /\ j + 1 = length (tc row) /\ cell_edge tc_right cell = true.
Proof.
  rewrite (scan_cells_flag right _ scan_cell_right). split.
  - intros [H | (i & row & j & cell & Hi & Hj & Hg)]; [discriminate |].
    rewrite andb_true_iff, Z.eqb_eq in Hg. exists i, row, j, cell.
    intuition lia.
  - intros (i & row & j & cell & Hi & Hj & Hc & Hv). right.
    exists i, row, j, cell. rewrite andb_true_iff, Z.eqb_eq. intuition lia.
Qed.

Lemma scan_cells_inside_h rows :
  inside_h (scan_cells rows BorderInfo_default) = true
  <-> exists i row j cell,
        rows !! i = Some row /\ tc row !! j = Some cell
        /\ ((i + 1 < length rows /\ cell_edge tc_bottom cell = true)
            \/ (0 < i /\ cell_edge tc_top cell = true)).
Proof.
  rewrite (scan_cells_flag inside_h _ scan_cell_inside_h). split.
  - intros [H | (i & row & j & cell & Hi & Hj & Hg)]; [discriminate |].
    rewrite orb_true_iff, !andb_true_iff, !Z.ltb_lt in Hg.
    exists i, row, j, cell. intuition lia.
  - intros (i & row & j & cell & Hi & Hj & Hc). right.
    exists i, row, j, cell. rewrite orb_true_iff, !andb_true_iff, !Z.ltb_lt.
    intuition lia.
Qed.

Lemma scan_cells_inside_v rows :
  inside_v (scan_cells rows BorderInfo_default) = true
  <-> exists i row j cell,
        rows !! i = Some row /\ tc row !! j = Some cell
        /\ ((j + 1 < length (tc row) /\ cell_edge tc_right cell = true)
            \/ (0 < j /\ cell_edge tc_left cell = true)).
Proof.
  rewrite (scan_cells_flag inside_v _ scan_cell_inside_v). split.
  - intros [H | (i & row & j & cell & Hi & Hj & Hg)]; [discriminate |].
    rewrite orb_true_iff, !andb_true_iff, !Z.ltb_lt in Hg.
    exists i, row, j, cell. intuition lia.
  - intros (i & row & j & cell & Hi & Hj & Hc). right.
    exists i, row, j, cell. rewrite orb_true_iff, !andb_true_iff, !Z.ltb_lt.
    intuition lia.
Qed.

Lemma detect_borders_scan t :
  no_visible_table_border t ->
  detect_borders t = scan_cells (tr t) BorderInfo_default.
Proof.
  intros Ht. apply detect_borders_cell_level.
  now rewrite table_level_default.
Qed.

(** Without a visible table-level edge, the outer flags are aggregated
    from the cells on the boundary: [top] from the top edges of the first
    row, [bottom] from the bottom edges of the last row, [left] from the left
    edge of the first cell of any row, [right] from the right edge of the
    last cell of any row. *)
Theorem detect_borders_outer_edges t :
  no_visible_table_border t ->
  (top (detect_borders t) = true
   <-> exists row cell,
         tr t !! 0 = Some row /\ In cell (tc row)
         /\ cell_edge tc_top cell = true)
  /\ (bottom (detect_borders t) = true
      <-> exists row cell,
            tr t !! (length (tr t) - 1) = Some row /\ In cell (tc row)
            /\ cell_edge tc_bottom cell = true)
  /\ (left (detect_borders t) = true
      <-> exists row cell,
            In row (tr t) /\ tc row !! 0 = Some cell
            /\ cell_edge tc_left cell = true)
  /\ (right (detect_borders t) = true
      <-> exists row cell,
            In row (tr t) /\ tc row !! (length (tc row) - 1) = Some cell
            /\ cell_edge tc_right cell = true).
Proof.
  intros Ht. rewrite (detect_borders_scan t Ht).
  rewrite scan_cells_top, scan_cells_bottom, scan_cells_left, scan_cells_right.
  repeat split.
  - intros (i & row & j & cell & Hi & Hj & -> & Hv).
    exists row, cell. rewrite In_lookup. eauto.
  - intros (row & cell & Hi & Hin & Hv). apply In_lookup in Hin.
    destruct Hin as [j Hj]. exists 0, row, j, cell. auto.
  - intros (i & row & j & cell & Hi & Hj & Hlast & Hv).
    exists row, cell. rewrite In_lookup.
    replace (length (tr t) - 1) with i by lia. eauto.
  - intros (row & cell & Hi & Hin & Hv). apply In_lookup in Hin.
    destruct Hin as [j Hj]. exists (length (tr t) - 1), row, j, cell.
    apply lookup_lt_Some in Hi as Hlt. repeat split; auto; lia.
  - intros (i & row & j & cell & Hi & Hj & -> & Hv).
    exists row, cell. rewrite In_lookup. eauto.
  - intros (row & cell & Hin & Hj & Hv). apply In_lookup in Hin.
    destruct Hin as [i Hi]. exists i, row, 0, cell. auto.
  - intros (i & row & j & cell & Hi & Hj & Hlast & Hv).
    exists row, cell. rewrite In_lookup.
    replace (length (tc row) - 1) with j by lia. eauto.
  - intros (row & cell & Hin & Hj & Hv). apply In_lookup in Hin.
    destruct Hin as [i Hi]. exists i, row, (length (tc row) - 1), cell.
    apply lookup_lt_Some in Hj as Hlt. repeat split; auto; lia.
Qed.

(** Without a visible table-level edge, [inside_h] is set exactly when
    some cell above the last row has a visible bottom edge or some cell below
    the first row has a visible top edge; [inside_v] exactly when some cell
    before the last cell of its row has a visible right edge or some cell
    after the first has a visible left edge. *)
Theorem detect_borders_inside_edges t :
  no_visible_table_border t ->
  (inside_h (detect_borders t) = true
   <-> exists i row cell,
         tr t !! i = Some row /\ In cell (tc row)
         /\ ((i + 1 < length (tr t) /\ cell_edge tc_bottom cell = true)
             \/ (0 < i /\ cell_edge tc_top cell = true)))
  /\ (inside_v (detect_borders t) = true
      <-> exists row j cell,
            In row (tr t) /\ tc row !! j = Some cell
            /\ ((j + 1 < length (tc row) /\ cell_edge tc_right cell = true)
                \/ (0 < j /\ cell_edge tc_left cell = true))).
Proof.
  intros Ht. rewrite (detect_borders_scan t Ht).
  rewrite scan_cells_inside_h, scan_cells_inside_v. repeat split.
  - intros (i & row & j & cell & Hi & Hj & Hc).
    exists i, row, cell. rewrite In_lookup. eauto.
  - intros (i & row & cell & Hi & Hin & Hc). apply In_lookup in Hin.
    destruct Hin as [j Hj]. exists i, row, j, cell. auto.
  - intros (i & row & j & cell & Hi & Hj & Hc).
    exists row, j, cell. rewrite In_lookup. eauto.
  - intros (row & j & cell & Hin & Hj & Hc). apply In_lookup in Hin.
    destruct Hin as [i Hi]. exists i, row, j, cell. auto.
Qed.

Lemma has_any_table_level t :
  has_any (table_level_borders t) = table_edge_visible t.
Proof.
  unfold table_level_borders, table_edge_visible.
  destruct (tbl_pr t) as [pr |]; [| reflexivity].
  now destruct (tbl_borders pr).
Qed.

Lemma has_any_scan_cells rows :
  has_any (scan_cells rows BorderInfo_default) = true
  <-> exists row cell,
        In row rows /\ In cell (tc row) /\ cell_edge_visible cell = true.
Proof.
  unfold has_any. rewrite !orb_true_iff.
  rewrite scan_cells_top, scan_cells_bottom, scan_cells_left,
    scan_cells_right, scan_cells_inside_h, scan_cells_inside_v.
  unfold cell_edge_visible. split.
  - intros H.
    assert (exists i row j cell,
               rows !! i = Some row /\ tc row !! j = Some cell
               /\ (cell_edge tc_top cell = true
                   \/ cell_edge tc_bottom cell = true
                   \/ cell_edge tc_left cell = true
                   \/ cell_edge tc_right cell = true))
      as (i & row & j & cell & Hi & Hj & Hv).
    { repeat destruct H as [H | H];
        destruct H as (i & row & j & cell & Hi & Hj & Hc);
        exists i, row, j, cell; intuition auto. }
    exists row, cell. rewrite !In_lookup, !orb_true_iff.
    split; [eauto |]. split; [eauto |]. tauto.
  - intros (row & cell & Hrow & Hcell & Hv).
    apply In_lookup in Hrow. destruct Hrow as [i Hi].
    apply In_lookup in Hcell. destruct Hcell as [j Hj].
    pose proof (lookup_lt_Some _ _ _ Hi) as Hilt.
    pose proof (lookup_lt_Some _ _ _ Hj) as Hjlt.
    rewrite !orb_true_iff in Hv.
    destruct Hv as [[[Hv | Hv] | Hv] | Hv].
    + destruct (Nat.eq_dec i 0) as [Hz | Hnz].
      * do 5 left. exists i, row, j, cell. auto.
      * left. right. exists i, row, j, cell.
        repeat split; auto. right. split; [lia | exact Hv].
    + destruct (Nat.eq_dec (i + 1) (length rows)) as [Hz | Hnz].
      * do 4 left. right. exists i, row, j, cell. auto.
      * left. right. exists i, row, j, cell.
        repeat split; auto. left. split; [lia | exact Hv].
    + destruct (Nat.eq_dec j 0) as [Hz | Hnz].
      * do 3 left. right. exists i, row, j, cell. auto.
      * right. exists i, row, j, cell.
        repeat split; auto. right. split; [lia | exact Hv].
    + destruct (Nat.eq_dec (j + 1) (length (tc row))) as [Hz | Hnz].
      * do 2 left. right. exists i, row, j, cell. auto.
      * right. exists i, row, j, cell.
        repeat split; auto. left. split; [lia | exact Hv].
Qed.

Lemma has_visible_borders_spec t :
  has_visible_borders t = any_edge_visible t.
Proof.
  unfold has_visible_borders, any_edge_visible.
  rewrite <- has_any_table_level.
  destruct (has_any (table_level_borders t)) eqn:Hany.
  - now rewrite detect_borders_table_level.
  - rewrite detect_borders_cell_level by exact Hany. simpl.
    apply eq_true_iff_eq. rewrite has_any_scan_cells, existsb_exists. split.
    + intros (row & cell & Hrow & Hcell & Hv). exists row.
      split; [exact Hrow |]. apply existsb_exists. eauto.
    + intros (row & Hrow & Hex). apply existsb_exists in Hex.
      destruct Hex as (cell & Hcell & Hv). eauto.
Qed.

(** Borders are detected exactly when some edge is visible: one of the
    six table-level edges, or one of the four edges of some cell. *)
Theorem has_visible_borders_iff_some_edge_visible t :
  has_visible_borders t = any_edge_visible t
  /\ (has_visible_borders t = true
      <-> table_edge_visible t = true
          \/ exists row cell,
               In row (tr t) /\ In cell (tc row)
               /\ (cell_edge tc_top cell = true
                   \/ cell_edge tc_bottom cell = true
                   \/ cell_edge tc_left cell = true
                   \/ cell_edge tc_right cell = true)).
Proof.
  split; [apply has_visible_borders_spec |].
  rewrite has_visible_borders_spec. unfold any_edge_visible.
  rewrite orb_true_iff, existsb_exists.
  split; (intros [H | H]; [now left | right]).
  - destruct H as (row & Hrow & Hex). apply existsb_exists in Hex.
    destruct Hex as (cell & Hcell & Hv). unfold cell_edge_visible in Hv.
    rewrite !orb_true_iff in Hv. exists row, cell. tauto.
  - destruct H as (row & cell & Hrow & Hcell & Hv). exists row.
    split; [exact Hrow |]. apply existsb_exists. exists cell.
    split; [exact Hcell |]. unfold cell_edge_visible.
    rewrite !orb_true_iff. tauto.
Qed.

End DetectedEdges.

(** ** Layout of the ASCII box *)

Lemma between_length (sep lines : list str) :
  length (between sep lines)
  = length lines + length sep * (length lines - 1).
Proof.
  induction lines as [| line rest IH]; [simpl; lia |].
  destruct rest as [| line' rest]; [simpl; lia |].
  change (between sep (line :: line' :: rest))
    with (line :: sep ++ between sep (line' :: rest)).
  cbn [length]. rewrite length_app, IH. cbn [length]. nia.
Qed.

Lemma data_lines_between (col_widths : list nat) (max_cols : nat)
    (border_info : BorderInfo) (n_rows : nat) (rows : list (list str)) :
  Forall (fun row => length row <= length col_widths) rows ->
  forall row_idx,
    row_idx + length rows = n_rows ->
    data_lines col_widths max_cols border_info n_rows row_idx rows
    = Some (between
              (if inside_h border_info
               then [build_h_line col_widths max_cols (left border_info)
                       (right border_info) (inside_v border_info)]
               else [])
              (map (row_line col_widths border_info) rows)).
Proof.
  induction 1 as [| row rows Hrow _ IH]; intros row_idx Hidx; [reflexivity |].
  cbn [data_lines]. rewrite build_data_row_spec by exact Hrow.
  cbn [length] in Hidx. rewrite (IH (S row_idx)) by lia.
  destruct rows as [| row' rows].
  - cbn [length] in Hidx.
    replace (Z.of_nat row_idx <? Z.of_nat n_rows - 1)%Z with false
      by (symmetry; apply Z.ltb_ge; lia).
    reflexivity.
  - cbn [length] in Hidx.
    replace (Z.of_nat row_idx <? Z.of_nat n_rows - 1)%Z with true
      by (symmetry; apply Z.ltb_lt; lia).
    reflexivity.
Qed.

Lemma max_list_with_const {A : Type} (f : A -> nat) (l : list A) (n : nat) :
  l <> [] -> (forall x, In x l -> f x = n) -> max_list_with f l = n.
Proof.
  intros Hne Hall. induction l as [| x l IH]; [congruence |].
  simpl. rewrite (Hall x) by now left.
  destruct l as [| y l]; [simpl; lia |].
  rewrite IH; [lia | discriminate |].
  intros z Hz. apply Hall. now right.
Qed.

Lemma pad_row_full (max_cols : nat) (row : list str) :
  length row = max_cols -> pad_row max_cols row = row.
Proof.
  intros <-. unfold pad_row. rewrite Nat.sub_diag. apply app_nil_r.
Qed.

Lemma ascii_of_rows_padded (rows_data : list (list str))
    (border_info : BorderInfo) :
  ascii_of_rows (map (pad_row (compute_max_cols rows_data)) rows_data)
    border_info
  = ascii_of_rows rows_data border_info.
Proof.
  set (n := compute_max_cols rows_data).
  assert (Hlen : forall row, In row (map (pad_row n) rows_data) ->
                             length row = n).
  { intros row. apply padded_rows_length. }
  assert (Hn : compute_max_cols (map (pad_row n) rows_data) = n).
  { destruct rows_data as [| row rows]; [reflexivity |].
    rewrite compute_max_cols_spec.
    apply (max_list_with_const (fun cells : list str => length cells));
      [discriminate | exact Hlen]. }
  assert (Hmap : map (pad_row n) (map (pad_row n) rows_data)
                 = map (pad_row n) rows_data).
  { rewrite <- (map_id (map (pad_row n) rows_data)) at 2.
    apply map_ext_in. intros row Hin. apply pad_row_full. now apply Hlen. }
  unfold ascii_of_rows. rewrite Hn. fold n. now rewrite Hmap.
Qed.

Lemma map_replicate {A B : Type} (f : A -> B) (n : nat) (x : A) :
  map f (replicate n x) = replicate n (f x).
Proof. induction n as [| n IH]; simpl; [reflexivity | now rewrite IH]. Qed.

Section AsciiLayout.

Context {Paragraph : Type} (paragraph_to_text : Paragraph -> str).
Implicit Types (t : Table Paragraph) (r : TableRow Paragraph).

Lemma ascii_lines_layout t (info : BorderInfo) :
  let col_widths := table_col_widths paragraph_to_text t in
  let rule := rule_line col_widths info in
  ascii_lines (padded_rows paragraph_to_text t)
    (table_max_cols paragraph_to_text t) info
  = Some ((if top info then [rule] else [])
          ++ between (if inside_h info then [rule] else [])
               (map (row_line col_widths info)
                  (padded_rows paragraph_to_text t))
          ++ (if bottom info then [rule] else [])).
Proof.
  intros col_widths rule. unfold ascii_lines.
  change (compute_col_widths (padded_rows paragraph_to_text t)
            (table_max_cols paragraph_to_text t)) with col_widths.
  assert (Hw : length col_widths = table_max_cols paragraph_to_text t)
    by apply compute_col_widths_length.
  rewrite (data_lines_between col_widths _ info
             (length (padded_rows paragraph_to_text t))).
  - unfold rule, rule_line. now rewrite Hw.
  - apply List.Forall_forall. intros row Hin. rewrite Hw.
    unfold padded_rows, table_max_cols in Hin.
    rewrite (padded_rows_length _ _ Hin). reflexivity.
  - reflexivity.
Qed.

(** The ASCII rendering of a table with rows is: the rule if [top] is
    set; then one line per row, every row filled up to the maximum column
    count, with the rule between consecutive rows if [inside_h] is set; then
    the rule if [bottom] is set. *)
Theorem table_to_ascii_layout t border_info :
  tr t <> [] ->
  let col_widths := table_col_widths paragraph_to_text t in
  let info := effective_borders t border_info in
  let rule := rule_line col_widths info in
  table_to_ascii paragraph_to_text t border_info
  = Some (join [NL]
            ((if top info then [rule] else [])
             ++ between (if inside_h info then [rule] else [])
                  (map (row_line col_widths info)
                     (padded_rows paragraph_to_text t))
             ++ (if bottom info then [rule] else []))).
Proof.
  intros Hne col_widths info rule.
  destruct (table_to_ascii_ok paragraph_to_text t border_info Hne)
    as (lines & Hlines & Hascii & _).
  rewrite ascii_lines_layout in Hascii. injection Hascii as <-.
  exact Hlines.
Qed.

(** The ASCII rendering of a table with [n] rows has one line per row,
    one more for each of [top] and [bottom], and [n - 1] more if [inside_h]
    is set; newlines inside the cells add no line. *)
Theorem table_to_ascii_line_count t border_info :
  tr t <> [] ->
  let info := effective_borders t border_info in
  exists s,
    table_to_ascii paragraph_to_text t border_info = Some s
    /\ length (split_nl s)
       = length (tr t) + b2n (top info) + b2n (bottom info)
         + (if inside_h info then length (tr t) - 1 else 0).
Proof.
  intros Hne info.
  destruct (table_to_ascii_ok paragraph_to_text t border_info Hne)
    as (lines & Hlines & Hascii & Hnonempty & Hunif & _).
  exists (join [NL] lines). split; [exact Hlines |].
  rewrite split_nl_join; [| exact Hnonempty |].
  2: { eapply Forall_impl; [exact Hunif |]. now intros line [_ Hnl]. }
  rewrite ascii_lines_layout in Hascii. injection Hascii as <-.
  fold info. rewrite !length_app, between_length, length_map.
  unfold padded_rows, extract_rows. rewrite !length_map.
  destruct (top info), (bottom info), (inside_h info); simpl; lia.
Qed.

End AsciiLayout.

(** ** Tab-separated and plain modes *)

Lemma Forall_join {P : ascii -> Prop} (sep : str) (parts : list str) :
  Forall P sep -> Forall (Forall P) parts -> Forall P (join sep parts).
Proof.
  intros Hsep Hparts. induction Hparts as [| p parts Hp _ IH]; [constructor |].
  destruct parts as [| q parts]; [exact Hp |].
  rewrite join_cons by discriminate.
  apply Forall_app. split; [exact Hp |]. apply Forall_app. now split.
Qed.

Lemma split_on_aux_free (ch : ascii) (s : str) :
  Forall (fun c => c <> ch) s ->
  forall cur, split_on_aux ch cur s = [cur ++ s].
Proof.
  induction 1 as [| c s Hc _ IH]; intros cur; simpl.
  - now rewrite app_nil_r.
  - destruct (decide (c = ch)) as [-> | _]; [congruence |].
    rewrite IH. now rewrite <- app_assoc.
Qed.

Lemma split_on_aux_sep (ch : ascii) (s rest : str) :
  Forall (fun c => c <> ch) s ->
  forall cur, split_on_aux ch cur (s ++ ch :: rest)
              = (cur ++ s) :: split_on_aux ch [] rest.
Proof.
  induction 1 as [| c s Hc _ IH]; intros cur; simpl.
  - destruct (decide (ch = ch)) as [_ | Hne]; [| congruence].
    now rewrite app_nil_r.
  - destruct (decide (c = ch)) as [-> | _]; [congruence |].
    rewrite IH. now rewrite <- app_assoc.
Qed.

Lemma split_on_join (ch : ascii) (parts : list str) :
  parts <> [] -> Forall (Forall (fun c => c <> ch)) parts ->
  split_on ch (join [ch] parts) = parts.
Proof.
  intros Hne Hall. unfold split_on.
  induction Hall as [| p parts Hp _ IH]; [congruence |].
  destruct parts as [| q parts].
  - simpl. now rewrite split_on_aux_free.
  - rewrite join_cons by discriminate.
    change (p ++ [ch] ++ join [ch] (q :: parts))
      with (p ++ ch :: join [ch] (q :: parts)).
    rewrite split_on_aux_sep by assumption.
    rewrite IH by discriminate. reflexivity.
Qed.

Lemma replace_char_with_app (old : ascii) (new a b : str) :
  replace_char_with old new (a ++ b)
  = replace_char_with old new a ++ replace_char_with old new b.
Proof. unfold replace_char_with. apply flat_map_app. Qed.

Lemma replace_char_with_join (old : ascii) (new sep : str) (parts : list str) :
  replace_char_with old new (join sep parts)
  = join (replace_char_with old new sep)
      (map (replace_char_with old new) parts).
Proof.
  induction parts as [| p parts IH]; [reflexivity |].
  destruct parts as [| q parts]; [reflexivity |].
  change (map (replace_char_with old new) (p :: q :: parts))
    with (replace_char_with old new p
          :: map (replace_char_with old new) (q :: parts)).
  rewrite !join_cons by discriminate.
  now rewrite !replace_char_with_app, IH.
Qed.

Lemma replace_char_with_free (old : ascii) (new text : str) :
  Forall (fun c => c <> old) text -> replace_char_with old new text = text.
Proof.
  induction 1 as [| c text Hc _ IH]; [reflexivity |].
  unfold replace_char_with in *. simpl.
  destruct (decide (c = old)); [congruence |]. simpl. now rewrite IH.
Qed.

Section TabsAndPlain.

Context {Paragraph : Type} (paragraph_to_text : Paragraph -> str).
Implicit Types (t : Table Paragraph) (r : TableRow Paragraph)
  (c : TableCell Paragraph).

Lemma table_to_tabs_cell_texts t :
  table_to_tabs paragraph_to_text t
  = join [NL] (map (join [TAB]) (cell_texts paragraph_to_text t)).
Proof.
  unfold table_to_tabs, cell_texts, row_to_text.
  destruct (tr t) as [| r rows]; [reflexivity |]. now rewrite map_map.
Qed.

Lemma table_to_plain_cell_texts t :
  table_to_plain paragraph_to_text t
  = join [NL] (map (join [SP; SP]) (cell_texts paragraph_to_text t)).
Proof.
  unfold table_to_plain, cell_texts, row_to_text.
  destruct (tr t) as [| r rows]; [reflexivity |]. now rewrite map_map.
Qed.

Lemma cell_texts_all (P : str -> Prop) t :
  (forall r c, In r (tr t) -> In c (tc r) ->
               P (cell_to_text paragraph_to_text (Some c))) ->
  Forall (Forall P) (cell_texts paragraph_to_text t).
Proof.
  intros H. unfold cell_texts. apply List.Forall_forall. intros cells Hin.
  apply in_map_iff in Hin. destruct Hin as (r & <- & Hr).
  apply List.Forall_forall. intros text Hin.
  apply in_map_iff in Hin. destruct Hin as (c & <- & Hc).
  now apply (H r c).
Qed.

(** When no cell text contains a tab, the plain rendering is the
    tab-separated rendering with every tab replaced by two spaces. *)
Theorem plain_is_tabs_with_tabs_replaced t :
  (forall r c, In r (tr t) -> In c (tc r) ->
               Forall (fun ch => ch <> TAB)
                 (cell_to_text paragraph_to_text (Some c))) ->
  replace_char_with TAB [SP; SP] (table_to_tabs paragraph_to_text t)
  = table_to_plain paragraph_to_text t.
Proof.
  intros Hfree. rewrite table_to_tabs_cell_texts, table_to_plain_cell_texts.
  rewrite replace_char_with_join, map_map. f_equal.
  apply map_ext_in. intros cells Hin.
  rewrite replace_char_with_join. f_equal.
  rewrite <- (map_id cells) at 2. apply map_ext_in. intros text Htext.
  apply replace_char_with_free.
  pose proof (cell_texts_all _ t Hfree) as Hall.
  eapply List.Forall_forall in Hall; [| exact Hin].
  eapply List.Forall_forall in Hall; [| exact Htext]. exact Hall.
Qed.

(** When the table has rows, every row has a cell and no cell text
    contains a newline or a tab, splitting the tab-separated rendering at
    the newlines and every line at the tabs gives back the cell texts. *)
Theorem tabs_split_gives_cell_texts t :
  tr t <> [] ->
  (forall r, In r (tr t) -> tc r <> []) ->
  (forall r c, In r (tr t) -> In c (tc r) ->
               Forall (fun ch => ch <> NL /\ ch <> TAB)
                 (cell_to_text paragraph_to_text (Some c))) ->
  map (split_on TAB) (split_on NL (table_to_tabs paragraph_to_text t))
  = cell_texts paragraph_to_text t.
Proof.
  intros Hrows Hcells Hfree. rewrite table_to_tabs_cell_texts.
  assert (Hnl : Forall (Forall (Forall (fun ch => ch <> NL)))
                  (cell_texts paragraph_to_text t)).
  { apply cell_texts_all. intros r c Hr Hc.
    eapply Forall_impl; [apply (Hfree r c Hr Hc) |]. now intros ch [H _]. }
  assert (Htab : Forall (Forall (Forall (fun ch => ch <> TAB)))
                   (cell_texts paragraph_to_text t)).
  { apply cell_texts_all. intros r c Hr Hc.
    eapply Forall_impl; [apply (Hfree r c Hr Hc) |]. now intros ch [_ H]. }
  rewrite split_on_join.
  - rewrite map_map. rewrite <- (map_id (cell_texts paragraph_to_text t)) at 2.
    apply map_ext_in. intros cells Hin. apply split_on_join.
    + unfold cell_texts in Hin. apply in_map_iff in Hin.
      destruct Hin as (r & <- & Hr). specialize (Hcells r Hr).
      destruct (tc r); [congruence | discriminate].
    + eapply List.Forall_forall in Htab; eauto.
  - unfold cell_texts. destruct (tr t); [congruence | discriminate].
  - apply List.Forall_forall. intros line Hin.
    apply in_map_iff in Hin. destruct Hin as (cells & <- & Hcellsin).
    apply Forall_join; [repeat constructor; discriminate |].
    eapply List.Forall_forall in Hnl; eauto.
Qed.

Lemma cell_texts_strip_borders t :
  cell_texts paragraph_to_text (strip_borders t)
  = cell_texts paragraph_to_text t.
Proof.
  unfold cell_texts, strip_borders. simpl. rewrite map_map.
  apply map_ext. intros r. simpl. rewrite map_map. reflexivity.
Qed.

Lemma extract_rows_cell_texts t :
  extract_rows paragraph_to_text t
  = map (map (replace_char NL SP)) (cell_texts paragraph_to_text t).
Proof.
  unfold extract_rows, cell_texts, row_cells. rewrite map_map.
  apply map_ext. intros r. now rewrite map_map.
Qed.

Lemma table_to_text_ascii t :
  table_to_text paragraph_to_text (Some t) Ascii
  = table_to_ascii paragraph_to_text t (Some full_borders).
Proof.
  unfold table_to_text, table_to_ascii.
  destruct (tr t); reflexivity.
Qed.

Lemma table_to_ascii_same_rows t t' (info : BorderInfo) :
  extract_rows paragraph_to_text t' = extract_rows paragraph_to_text t ->
  table_to_ascii paragraph_to_text t' (Some info)
  = table_to_ascii paragraph_to_text t (Some info).
Proof.
  intros Hrows. destruct (tr t) as [| r rows] eqn:Htr.
  - assert (Htr' : tr t' = []).
    { unfold extract_rows in Hrows. rewrite Htr in Hrows.
      now apply map_eq_nil in Hrows. }
    unfold table_to_ascii. now rewrite Htr, Htr'.
  - assert (Htr' : tr t' <> []).
    { intros Hnil. unfold extract_rows in Hrows. rewrite Hnil, Htr in Hrows.
      discriminate. }
    rewrite !table_to_ascii_rows by congruence. now rewrite Hrows.
Qed.

(** In the tabs, plain and explicit ascii modes no border declaration is
    read: the table and the table stripped of every table-level and
    cell-level border declaration render alike. *)
Theorem explicit_modes_ignore_borders t :
  table_to_text paragraph_to_text (Some (strip_borders t)) Tabs
  = table_to_text paragraph_to_text (Some t) Tabs
  /\ table_to_text paragraph_to_text (Some (strip_borders t)) Plain
     = table_to_text paragraph_to_text (Some t) Plain
  /\ table_to_text paragraph_to_text (Some (strip_borders t)) Ascii
     = table_to_text paragraph_to_text (Some t) Ascii.
Proof.
  assert (Hnil : tr t = [] -> tr (strip_borders t) = []).
  { intros H. unfold strip_borders. simpl. now rewrite H. }
  assert (Hcons : tr t <> [] -> tr (strip_borders t) <> []).
  { unfold strip_borders. simpl. destruct (tr t); [congruence | discriminate]. }
  split; [| split].
  - unfold table_to_text.
    destruct (tr t) as [| r rows] eqn:Htr; [now rewrite Hnil |].
    destruct (tr (strip_borders t)) eqn:Hs; [exfalso; now apply Hcons |].
    now rewrite !table_to_tabs_cell_texts, cell_texts_strip_borders.
  - unfold table_to_text.
    destruct (tr t) as [| r rows] eqn:Htr; [now rewrite Hnil |].
    destruct (tr (strip_borders t)) eqn:Hs; [exfalso; now apply Hcons |].
    now rewrite !table_to_plain_cell_texts, cell_texts_strip_borders.
  - rewrite !table_to_text_ascii. apply table_to_ascii_same_rows.
    now rewrite !extract_rows_cell_texts, cell_texts_strip_borders.
Qed.

Lemma extract_rows_fill_table t :
  extract_rows paragraph_to_text (fill_table t)
  = map (pad_row (table_max_cols paragraph_to_text t))
      (extract_rows paragraph_to_text t).
Proof.
  rewrite table_max_cols_spec. unfold fill_table, extract_rows. simpl tr.
  rewrite !map_map.
  apply map_ext. intros r. unfold row_cells, fill_row, pad_row. simpl tc.
  rewrite map_app, map_replicate, length_map. reflexivity.
Qed.

(** A missing cell is drawn like an empty cell: with given border flags,
    and so in explicit ascii mode, the table with every short row filled up
    with empty cells has the ASCII rendering of the table itself. *)
Theorem ascii_of_filled_table t :
  (forall info : BorderInfo,
      table_to_ascii paragraph_to_text (fill_table t) (Some info)
      = table_to_ascii paragraph_to_text t (Some info))
  /\ table_to_text paragraph_to_text (Some (fill_table t)) Ascii
     = table_to_text paragraph_to_text (Some t) Ascii.
Proof.
  assert (H : forall info : BorderInfo,
             table_to_ascii paragraph_to_text (fill_table t) (Some info)
             = table_to_ascii paragraph_to_text t (Some info)).
  { intros info. destruct (tr t) as [| r rows] eqn:Htr.
    - unfold table_to_ascii, fill_table. simpl tr. now rewrite Htr.
    - rewrite !table_to_ascii_rows.
      + rewrite extract_rows_fill_table. apply ascii_of_rows_padded.
      + congruence.
      + unfold fill_table. simpl tr. rewrite Htr. discriminate. }
  split; [exact H |]. rewrite !table_to_text_ascii. apply H.
Qed.

(** A converter never fails, in any mode; it renders a missing table as
    the empty string; and the default converter renders a table in tabs mode
    when no edge is visible at any level, and as the ASCII box of the
    detected borders otherwise. *)
Theorem convert_default_and_total :
  (forall (self : TableToTextConverter) (table : option (Table Paragraph)),
      exists s, convert paragraph_to_text self table = Some s)
  /\ (forall self : TableToTextConverter,
        convert paragraph_to_text self None = Some [])
  /\ (forall t,
        convert paragraph_to_text default_converter (Some t)
        = if any_edge_visible t
          then table_to_ascii paragraph_to_text t None
          else Some (table_to_tabs paragraph_to_text t)).
Proof.
  split; [| split].
  - intros [m] [t |]; unfold convert, table_to_text; simpl; [| eauto].
    destruct (tr t) as [| r rows] eqn:Htr; [eauto |].
    destruct m; try destruct (has_visible_borders t);
      eauto using table_to_ascii_total.
  - reflexivity.
  - intros t. unfold convert, table_to_text. simpl.
    rewrite <- has_visible_borders_spec.
    destruct (tr t) as [| r rows] eqn:Htr.
    + unfold table_to_ascii, table_to_tabs. rewrite Htr.
      now destruct (has_visible_borders t).
    + now destruct (has_visible_borders t).
Qed.

End TabsAndPlain.

Section AutoAndAscii.

Context {Paragraph : Type} (paragraph_to_text : Paragraph -> str).

(** A table that declares all six table-level edges visible renders in
    [auto] mode as it does in explicit [ascii] mode. *)
Theorem auto_is_ascii_for_fully_bordered_table (t : Table Paragraph)
    (pr : TableProperties) (borders : TableBorders) :
  tbl_pr t = Some pr -> tbl_borders pr = Some borders ->
  _is_border_visible (tbl_top borders) = true ->
  _is_border_visible (tbl_bottom borders) = true ->
  _is_border_visible (tbl_left borders) = true ->
  _is_border_visible (tbl_right borders) = true ->
  _is_border_visible (tbl_inside_h borders) = true ->
  _is_border_visible (tbl_inside_v borders) = true ->
  table_to_text paragraph_to_text (Some t) Auto
  = table_to_text paragraph_to_text (Some t) Ascii.
Proof.
  intros Hpr Hb Ht Hbo Hl Hr Hh Hv.
  assert (Hlevel : table_level_borders t = full_borders).
  { unfold table_level_borders. rewrite Hpr, Hb, Ht, Hbo, Hl, Hr, Hh, Hv.
    reflexivity. }
  assert (Hdetect : detect_borders t = full_borders).
  { rewrite detect_borders_table_level; [exact Hlevel |].
    now rewrite Hlevel. }
  unfold table_to_text, has_visible_borders. rewrite Hdetect. simpl.
  destruct (tr t) as [| r rows] eqn:Htr; [reflexivity |].
  unfold table_to_ascii. rewrite Htr, Hdetect. reflexivity.
Qed.

End AutoAndAscii.

(** ** The further theorems at concrete tables *)

Lemma detect_borders_outer_edges_witness :
  bottom (detect_borders Cases.t22) = true
  <-> exists row cell,
        tr Cases.t22 !! (length (tr Cases.t22) - 1) = Some row
        /\ In cell (tc row) /\ cell_edge tc_bottom cell = true.
Proof.
  refine (proj1 (proj2 (detect_borders_outer_edges Cases.t22 _))).
  intros pr borders Hpr. discriminate Hpr.
Defined.

Lemma detect_borders_inside_edges_witness :
  inside_h (detect_borders Cases.t22) = true
  <-> exists i row cell,
        tr Cases.t22 !! i = Some row /\ In cell (tc row)
        /\ ((i + 1 < length (tr Cases.t22)
             /\ cell_edge tc_bottom cell = true)
            \/ (0 < i /\ cell_edge tc_top cell = true)).
Proof.
  refine (proj1 (detect_borders_inside_edges Cases.t22 _)).
  intros pr borders Hpr. discriminate Hpr.
Defined.

Lemma table_to_ascii_layout_witness :
  table_to_ascii Sample.render Cases.t_top None
  = Some (lit "-----------" ++ [NL] ++ lit "  A1   A2  ").
Proof.
  refine (table_to_ascii_layout Sample.render Cases.t_top None _).
  discriminate.
Defined.

Lemma table_to_ascii_line_count_witness :
  exists s,
    table_to_ascii Sample.render Cases.t_ragged (Some full_borders) = Some s
    /\ length (split_nl s) = 7.
Proof.
  refine (table_to_ascii_line_count Sample.render Cases.t_ragged
            (Some full_borders) _).
  discriminate.
Defined.

Lemma plain_is_tabs_with_tabs_replaced_witness :
  replace_char_with TAB [SP; SP] (table_to_tabs Sample.render Cases.t_ragged)
  = table_to_plain Sample.render Cases.t_ragged.
Proof.
  apply (plain_is_tabs_with_tabs_replaced Sample.render Cases.t_ragged).
  intros r c Hr Hc. simpl in Hr.
  repeat (destruct Hr as [<- | Hr];
          [simpl in Hc;
           repeat (destruct Hc as [<- | Hc];
                   [simpl; repeat constructor; discriminate |]);
           contradiction |]).
  contradiction.
Defined.

Lemma tabs_split_gives_cell_texts_witness :
  map (split_on TAB) (split_on NL (table_to_tabs Sample.render Cases.t22))
  = [[lit "a"; lit "b"]; [lit "c"; lit "d"]].
Proof.
  refine (tabs_split_gives_cell_texts Sample.render Cases.t22 _ _ _).
  - discriminate.
  - intros r Hr. simpl in Hr.
    repeat (destruct Hr as [<- | Hr]; [discriminate |]). contradiction.
  - intros r c Hr Hc. simpl in Hr.
    repeat (destruct Hr as [<- | Hr];
            [simpl in Hc;
             repeat (destruct Hc as [<- | Hc];
                     [simpl; repeat constructor; discriminate |]);
             contradiction |]).
    contradiction.
Defined.

Lemma auto_is_ascii_for_fully_bordered_table_witness :
  table_to_text Sample.render (Some Boxed.t_boxed) Auto
  = table_to_text Sample.render (Some Boxed.t_boxed) Ascii.
Proof.
  exact (auto_is_ascii_for_fully_bordered_table Sample.render Boxed.t_boxed
           Boxed.all_props Boxed.all_borders
           eq_refl eq_refl eq_refl eq_refl eq_refl eq_refl eq_refl eq_refl).
Defined.
